(** * Structural analysis of Python sources and chunk extraction

    A shallow embedding of [backend/app/services/code_parser_service.py]:
    the [PythonASTVisitor] walking a syntax tree produced by [ast.parse],
    and [CodeParserService] building file structures and chunks from it.

    Python [str] values are modelled as [string], a character being a
    code point below 256; integers as [Z]; the dictionaries the service
    builds are records whose optional keys are [option] fields;
    exceptions are the [Raise] case of [result].

    The trees are those [ast.parse] returns on Python 3.8 and later: a
    position attribute is an integer or is missing, and the traversal of
    a tree is not bounded by the recursion limit of the interpreter. *)

From Stdlib Require Import ZArith List ListSet String Ascii Bool Lia DecimalString.
Import ListNotations.

Set Warnings "-register-all".

Local Open Scope string_scope.
Local Open Scope list_scope.
Local Open Scope Z_scope.

(** ** Exceptions *)

(** The exceptions that reading a file, parsing it and traversing such a
    tree raise. *)
Inductive exn : Type :=
| AttributeError
| IndexError
| SyntaxError (msg : string)
| OSError (msg : string).

Inductive result (A : Type) : Type :=
| Ok (a : A)
| Raise (e : exn).

Arguments Ok {A} a.
Arguments Raise {A} e.

Definition bind {A B : Type} (r : result A) (k : A -> result B) : result B :=
  match r with
  | Ok a => k a
  | Raise e => Raise e
  end.

Notation "x <- r ;; k" := (bind r (fun x => k))
  (at level 61, r at next level, right associativity).

(** [getattr o] for an attribute that may be missing. *)
Definition getattr {A : Type} (o : option A) : result A :=
  match o with
  | Some a => Ok a
  | None => Raise AttributeError
  end.

(** ** Python sequences: indexing and slicing *)

(** [l[i]]: a negative index counts from the end, an index out of range
    raises [IndexError]. *)
Definition py_index {A : Type} (l : list A) (i : Z) : result A :=
  let n := Z.of_nat (List.length l) in
  let j := if i <? 0 then i + n else i in
  if (j <? 0) || (n <=? j) then Raise IndexError
  else match nth_error l (Z.to_nat j) with
       | Some a => Ok a
       | None => Raise IndexError
       end.

(** Clamping of one slice bound to [0..n]. *)
Definition adjust (n i : Z) : Z :=
  if i <? 0 then Z.max 0 (i + n) else Z.min i n.

(** [l[start:stop]], an omitted bound being [None]. *)
Definition py_slice {A : Type} (l : list A) (start stop : option Z) : list A :=
  let n := Z.of_nat (List.length l) in
  let lo := match start with Some i => adjust n i | None => 0 end in
  let hi := match stop with Some i => adjust n i | None => n end in
  firstn (Z.to_nat (hi - lo)) (skipn (Z.to_nat lo) l).

Definition str_slice (s : string) (start stop : option Z) : string :=
  string_of_list_ascii (py_slice (list_ascii_of_string s) start stop).

(** ['\n'.join(lines)] *)
Fixpoint join_lines (lines : list string) : string :=
  match lines with
  | [] => ""
  | [l] => l
  | l :: rest => (l ++ String "010" (join_lines rest))%string
  end.

(** [str.splitlines()]: the line boundaries among the characters below 256
    are LF, CR, CR LF, VT, FF, FS, GS, RS and NEL; a final line with no
    terminator is kept when it is not empty. *)
Definition is_line_boundary (c : ascii) : bool :=
  match nat_of_ascii c with
  | 10%nat | 11%nat | 12%nat | 13%nat | 28%nat | 29%nat | 30%nat | 133%nat => true
  | _ => false
  end.

Fixpoint splitlines_from (cur : string) (s : string) : list string :=
  match s with
  | EmptyString => if String.eqb cur "" then [] else [cur]
  | String c s' =>
      if Ascii.eqb c "013" then
        match s' with
        | String "010" s'' => cur :: splitlines_from "" s''
        | _ => cur :: splitlines_from "" s'
        end
      else if is_line_boundary c then cur :: splitlines_from "" s'
      else splitlines_from (cur ++ String c "")%string s'
  end.

Definition splitlines (s : string) : list string := splitlines_from "" s.

(** ** Syntax trees *)

(** The position attributes of a node; the visitor tests each with
    [hasattr], so each may be missing: [None] is an attribute that the
    node does not have. *)
Record attrs : Type := mk_attrs {
  lineno : option Z;
  col_offset : option Z;
  end_lineno : option Z;
  end_col_offset : option Z
}.

Definition no_attrs : attrs := mk_attrs None None None None.

(** The node classes of [ast] the visitor tells apart, with their fields in
    the order of [_fields]; every other class is [Other] with its child
    nodes in field order.  Fields that hold no node and that the visitor
    does not read ([ctx], [level], [type_comment]) are left out. *)
Inductive node : Type :=
| Module (a : attrs) (body : list node)
| Import (a : attrs) (names : list node)
| ImportFrom (a : attrs) (module : option string) (names : list node)
| Alias (a : attrs) (name : string) (asname : option string)
| ClassDef (a : attrs) (name : string)
    (bases keywords body decorator_list : list node)
| FunctionDef (a : attrs) (name : string) (args : node)
    (body decorator_list : list node) (returns : option node)
| AsyncFunctionDef (a : attrs) (name : string) (args : node)
    (body decorator_list : list node) (returns : option node)
| Arguments (a : attrs) (posonlyargs args : list node) (vararg : option node)
    (kwonlyargs : list node) (kw_defaults : list (option node))
    (kwarg : option node) (defaults : list node)
| Arg (a : attrs) (arg : string) (annotation : option node)
| Assign (a : attrs) (targets : list node) (value : node)
| Name (a : attrs) (id : string)
| Attribute (a : attrs) (value : node) (attr : string)
| Call (a : attrs) (func : node) (args keywords : list node)
| Other (a : attrs) (children : list node).

Definition attrs_of (n : node) : attrs :=
  match n with
  | Module a _ | Import a _ | ImportFrom a _ _ | Alias a _ _
  | ClassDef a _ _ _ _ _ | FunctionDef a _ _ _ _ _
  | AsyncFunctionDef a _ _ _ _ _ | Arguments a _ _ _ _ _ _ _
  | Arg a _ _ | Assign a _ _ | Name a _ | Attribute a _ _
  | Call a _ _ _ | Other a _ => a
  end.

(** A loop [for child in ast.iter_child_nodes(node)] with loop body [f],
    threading the accumulator [b]. *)
Section IterChildNodes.
Context {B : Type} (f : node -> B -> B).

Definition each (l : list node) (b : B) : B :=
  fold_left (fun acc c => f c acc) l b.

Definition each_opt (o : option node) (b : B) : B :=
  match o with
  | Some c => f c b
  | None => b
  end.

Definition each_opts (l : list (option node)) (b : B) : B :=
  fold_left (fun acc o => each_opt o acc) l b.

Definition for_child_nodes (n : node) (b : B) : B :=
  match n with
  | Module _ body => each body b
  | Import _ names => each names b
  | ImportFrom _ _ names => each names b
  | Alias _ _ _ => b
  | ClassDef _ _ bases keywords body decorator_list =>
      each decorator_list (each body (each keywords (each bases b)))
  | FunctionDef _ _ args body decorator_list returns
  | AsyncFunctionDef _ _ args body decorator_list returns =>
      each_opt returns (each decorator_list (each body (f args b)))
  | Arguments _ posonlyargs args vararg kwonlyargs kw_defaults kwarg defaults =>
      each defaults (each_opt kwarg (each_opts kw_defaults
        (each kwonlyargs (each_opt vararg (each args (each posonlyargs b))))))
  | Arg _ _ annotation => each_opt annotation b
  | Assign _ targets value => f value (each targets b)
  | Name _ _ => b
  | Attribute _ value _ => f value b
  | Call _ func args keywords => each keywords (each args (f func b))
  | Other _ children => each children b
  end.
End IterChildNodes.

(** [list(ast.iter_child_nodes(n))] *)
Definition iter_child_nodes (n : node) : list node :=
  for_child_nodes (fun c acc => acc ++ [c]) n [].

Fixpoint node_size (n : node) : nat :=
  S (for_child_nodes (fun c acc => (node_size c + acc)%nat) n 0%nat).

(** ** PythonASTVisitor: source text and end line of a node *)

Definition hasattr {A : Type} (o : option A) : bool :=
  match o with Some _ => true | None => false end.

(** [_get_node_source] *)
Definition _get_node_source (source_lines : list string) (n : node)
  : result string :=
  let a := attrs_of n in
  match lineno a, end_lineno a with
  | Some l, Some el =>
      let start_line := l - 1 in
      let end_line := el - 1 in
      match col_offset a, end_col_offset a with
      | Some c, Some ec =>
          if start_line =? end_line then
            line <- py_index source_lines start_line ;;
            Ok (str_slice line (Some c) (Some ec))
          else
            first <- py_index source_lines start_line ;;
            let lines := [str_slice first (Some c) None] in
            let lines :=
              lines ++ py_slice source_lines (Some (start_line + 1)) (Some end_line) in
            last <- py_index source_lines end_line ;;
            let lines := lines ++ [str_slice last None (Some ec)] in
            Ok (join_lines lines)
      | _, _ =>
          Ok (join_lines (py_slice source_lines (Some start_line) (Some (end_line + 1))))
      end
  | _, _ => Ok ""
  end.

(** [_get_end_line] *)
Fixpoint _get_end_line (n : node) : result Z :=
  match end_lineno (attrs_of n) with
  | Some el => Ok el
  | None =>
      max_line <- getattr (lineno (attrs_of n)) ;;
      for_child_nodes
        (fun child acc =>
           max_line <- acc ;;
           if hasattr (lineno (attrs_of child)) then
             child_end <- _get_end_line child ;;
             Ok (Z.max max_line child_end)
           else Ok max_line)
        n (Ok max_line)
  end.

(** ** The dictionaries built by the visitor *)

(** [{'name', 'alias', 'line'}] *)
Record import_info : Type := mk_import {
  import_name : string;
  import_alias : option string;
  import_line : Z
}.

(** [{'name', 'type'?, 'default'?}] *)
Record param_info : Type := mk_param {
  param_name : string;
  param_type : option string;
  param_default : option string
}.

(** [{'name', 'line_range', 'content', 'docstring'?, 'params', 'returns'?}] *)
Record func_info : Type := mk_func {
  func_name : string;
  func_line_range : Z * Z;
  func_content : string;
  func_docstring : option string;
  func_params : list param_info;
  func_returns : option string
}.

(** [{'name', 'line_range', 'methods', 'content', 'docstring'?, 'bases'?}] *)
Record class_info : Type := mk_class {
  class_name : string;
  class_line_range : Z * Z;
  class_methods : list func_info;
  class_content : string;
  class_docstring : option string;
  class_bases : option (list string)
}.

(** [{'name', 'line', 'value'}] *)
Record variable_info : Type := mk_variable {
  variable_name : string;
  variable_line : Z;
  variable_value : string
}.

(** The attributes of a [PythonASTVisitor] instance. *)
Record visitor : Type := mk_visitor {
  source_lines : list string;
  imports : list import_info;
  classes : list class_info;
  functions : list func_info;
  variables : list variable_info
}.

(** [PythonASTVisitor.__init__] *)
Definition init_visitor (source_code : string) : visitor :=
  mk_visitor (splitlines source_code) [] [] [] [].

(** A [for] loop over a list whose body may raise. *)
Fixpoint for_each {A S : Type} (l : list A) (body : A -> S -> result S) (s : S)
  : result S :=
  match l with
  | [] => Ok s
  | x :: l' => s' <- body x s ;; for_each l' body s'
  end.

(** [enumerate(l)], counting from [i]. *)
Fixpoint enumerate_from {A : Type} (i : Z) (l : list A) : list (Z * A) :=
  match l with
  | [] => []
  | x :: l' => (i, x) :: enumerate_from (i + 1) l'
  end.

(** [l[i] = g(l[i])], the in-place update of one item. *)
Definition py_update {A : Type} (l : list A) (i : Z) (g : A -> A) : result (list A) :=
  x <- py_index l i ;;
  let n := Z.of_nat (List.length l) in
  let j := Z.to_nat (if i <? 0 then i + n else i) in
  Ok (firstn j l ++ g x :: skipn (S j) l).

Definition set_default (d : string) (p : param_info) : param_info :=
  mk_param (param_name p) (param_type p) (Some d).

(** The body of the first loop of [_extract_parameters]. *)
Definition param_of_arg (src : list string) (arg : node) (params : list param_info)
  : result (list param_info) :=
  match arg with
  | Arg _ name annotation =>
      type <- match annotation with
              | Some ann => t <- _get_node_source src ann ;; Ok (Some t)
              | None => Ok None
              end ;;
      Ok (params ++ [mk_param name type None])
  | _ => Raise AttributeError
  end.

(** The body of its second loop, over [enumerate(defaults)]. *)
Definition align_default (src : list string) (default_offset : Z)
  (item : Z * node) (params : list param_info) : result (list param_info) :=
  let '(i, default) := item in
  d <- _get_node_source src default ;;
  py_update params (default_offset + i) (set_default d).

(** [_extract_parameters] *)
Definition _extract_parameters (src : list string) (n : node)
  : result (list param_info) :=
  match n with
  | FunctionDef _ _ (Arguments _ _ args _ _ _ _ defaults) _ _ _
  | AsyncFunctionDef _ _ (Arguments _ _ args _ _ _ _ defaults) _ _ _ =>
      params <- for_each args (param_of_arg src) [] ;;
      match defaults with
      | [] => Ok params
      | _ =>
          let default_offset :=
            Z.of_nat (List.length args) - Z.of_nat (List.length defaults) in
          for_each (enumerate_from 0 defaults) (align_default src default_offset) params
      end
  | _ => Raise AttributeError
  end.

(** [_get_name] *)
Fixpoint _get_name (src : list string) (n : node) : result string :=
  match n with
  | Name _ id => Ok id
  | Attribute _ value attr =>
      v <- _get_name src value ;; Ok (v ++ "." ++ attr)%string
  | Call _ func _ _ => _get_name src func
  | _ => _get_node_source src n
  end.

(** The signatures [(name, line_range)] compared by the filtering pass. *)
Definition signature : Type := string * (Z * Z).

Definition signature_eq_dec (x y : signature) : {x = y} + {x <> y}.
Proof.
  decide equality.
  - decide equality; apply Z.eq_dec.
  - apply string_dec.
Defined.

Definition func_signature (f : func_info) : signature :=
  (func_name f, func_line_range f).

Section Visitor.
(** [ast.get_docstring], a function of the standard library. *)
Variable get_docstring : node -> option string.

(** [docstring = ast.get_docstring(node)], kept [if docstring]. *)
Definition docstring_of (n : node) : option string :=
  match get_docstring n with
  | Some d => if String.eqb d "" then None else Some d
  | None => None
  end.

(** [_process_function] *)
Definition _process_function (src : list string) (n : node) : result func_info :=
  match n with
  | FunctionDef a name _ _ _ returns
  | AsyncFunctionDef a name _ _ _ returns =>
      l <- getattr (lineno a) ;;
      el <- _get_end_line n ;;
      content <- _get_node_source src n ;;
      params <- _extract_parameters src n ;;
      ret <- match returns with
             | Some r => t <- _get_node_source src r ;; Ok (Some t)
             | None => Ok None
             end ;;
      Ok (mk_func name (l, el) content (docstring_of n) params ret)
  | _ => Raise AttributeError
  end.

Definition is_FunctionDef (n : node) : bool :=
  match n with FunctionDef _ _ _ _ _ _ => true | _ => false end.

Definition is_Name (n : node) : bool :=
  match n with Name _ _ => true | _ => false end.

(** The loop of [visit_Import] and [visit_ImportFrom] over [node.names]. *)
Definition import_names (a : attrs) (module : option string) (names : list node)
  (v : visitor) : result visitor :=
  for_each names
    (fun name v =>
       match name with
       | Alias _ nm asname =>
           line <- getattr (lineno a) ;;
           let full := match module with
                       | Some m => if String.eqb m "" then nm else (m ++ "." ++ nm)%string
                       | None => nm
                       end in
           Ok (mk_visitor (source_lines v)
                 (imports v ++ [mk_import full asname line])
                 (classes v) (functions v) (variables v))
       | _ => Raise AttributeError
       end)
    v.

(** The body of [visit_ClassDef] up to [self.classes.append]. *)
Definition class_record (src : list string) (n : node) : result class_info :=
  match n with
  | ClassDef a name bases _ body _ =>
      l <- getattr (lineno a) ;;
      el <- _get_end_line n ;;
      content <- _get_node_source src n ;;
      bs <- match bases with
            | [] => Ok None
            | _ =>
                names <- for_each bases
                  (fun base acc => b <- _get_name src base ;; Ok (acc ++ [b])) [] ;;
                Ok (Some names)
            end ;;
      methods <-
        for_each body
          (fun item methods =>
             if is_FunctionDef item then
               method_info <- _process_function src item ;;
               Ok (methods ++ [method_info])
             else Ok methods)
          [] ;;
      Ok (mk_class name (l, el) methods content (docstring_of n) bs)
  | _ => Raise AttributeError
  end.

(** The loop of [visit_Assign] over [node.targets]. *)
Definition assign_targets (a : attrs) (targets : list node) (value : node)
  (v : visitor) : result visitor :=
  for_each targets
    (fun target v =>
       match target with
       | Name _ id =>
           line <- getattr (lineno a) ;;
           val <- _get_node_source (source_lines v) value ;;
           Ok (mk_visitor (source_lines v) (imports v) (classes v) (functions v)
                 (variables v ++ [mk_variable id line val]))
       | _ => Ok v
       end)
    v.

(** [NodeVisitor.visit]: dispatch on the class of the node to
    [visit_Import], [visit_ImportFrom], [visit_ClassDef],
    [visit_FunctionDef] and [visit_Assign], every other class going to
    [generic_visit]; each of the five ends with [generic_visit]. *)
Fixpoint visit (n : node) (v : visitor) {struct n} : result visitor :=
  let generic_visit (v : visitor) : result visitor :=
    for_child_nodes (fun child acc => v' <- acc ;; visit child v') n (Ok v) in
  match n with
  | Import a names =>
      v1 <- import_names a None names v ;;
      generic_visit v1
  | ImportFrom a module names =>
      v1 <- import_names a module names v ;;
      generic_visit v1
  | ClassDef _ _ _ _ _ _ =>
      c <- class_record (source_lines v) n ;;
      generic_visit
        (mk_visitor (source_lines v) (imports v) (classes v ++ [c])
           (functions v) (variables v))
  | FunctionDef _ _ _ _ _ _ =>
      func_info <- _process_function (source_lines v) n ;;
      generic_visit
        (mk_visitor (source_lines v) (imports v) (classes v)
           (functions v ++ [func_info]) (variables v))
  | Assign a targets value =>
      v1 <- assign_targets a targets value v ;;
      generic_visit v1
  | _ => generic_visit v
  end.

(** [filter_methods_from_functions] *)
Definition method_signatures (cs : list class_info) : list signature :=
  fold_left
    (fun sigs c =>
       fold_left (fun sigs m => ListSet.set_add signature_eq_dec (func_signature m) sigs)
         (class_methods c) sigs)
    cs (ListSet.empty_set signature).

Definition filter_methods_from_functions (v : visitor) : visitor :=
  let sigs := method_signatures (classes v) in
  mk_visitor (source_lines v) (imports v) (classes v)
    (filter (fun f => negb (ListSet.set_mem signature_eq_dec (func_signature f) sigs))
       (functions v))
    (variables v).
End Visitor.

(** ** CodeParserService *)

(** The dictionary returned by [parse_python_file]: either the five keys of
    a parsed file, or ['file_path'] and ['error'] alone.  A key that is
    missing is [None]. *)
Record file_structure : Type := mk_file_structure {
  file_path : string;
  fs_error : option string;
  fs_imports : option (list import_info);
  fs_classes : option (list class_info);
  fs_functions : option (list func_info);
  fs_variables : option (list variable_info)
}.

(** [d.get(key, default)] *)
Definition dict_get {A : Type} (o : option A) (default : A) : A :=
  match o with
  | Some a => a
  | None => default
  end.

(** A chunk; ['class_name'] is a key of method chunks only, ['params'] and
    ['returns'] are keys of method and function chunks only (the value of
    ['returns'] may be Python's [None]). *)
Record chunk : Type := mk_chunk {
  chunk_id : string;
  chunk_type : string;
  chunk_name : string;
  chunk_class_name : option string;
  chunk_file_path : string;
  chunk_content : string;
  chunk_docstring : string;
  chunk_line_range : Z * Z;
  chunk_params : option (list param_info);
  chunk_returns : option (option string)
}.

Definition class_chunk (file_path : string) (c : class_info) : chunk :=
  mk_chunk (file_path ++ ":class:" ++ class_name c)%string "class" (class_name c)
    None file_path (class_content c) (dict_get (class_docstring c) "")
    (class_line_range c) None None.

Definition method_chunk (file_path : string) (c : class_info) (m : func_info) : chunk :=
  mk_chunk (file_path ++ ":method:" ++ class_name c ++ "." ++ func_name m)%string
    "method" (func_name m) (Some (class_name c)) file_path (func_content m)
    (dict_get (func_docstring m) "") (func_line_range m)
    (Some (func_params m)) (Some (func_returns m)).

Definition func_chunk (file_path : string) (f : func_info) : chunk :=
  mk_chunk (file_path ++ ":function:" ++ func_name f)%string "function" (func_name f)
    None file_path (func_content f) (dict_get (func_docstring f) "")
    (func_line_range f) (Some (func_params f)) (Some (func_returns f)).

(** [extract_chunks]: the two loops, each [chunks.append] adding at the end. *)
Definition extract_chunks (fs : file_structure) : list chunk :=
  let chunks := [] in
  let file_path := file_path fs in
  let chunks :=
    fold_left
      (fun chunks class_info =>
         let chunks := chunks ++ [class_chunk file_path class_info] in
         fold_left
           (fun chunks method => chunks ++ [method_chunk file_path class_info method])
           (class_methods class_info) chunks)
      (dict_get (fs_classes fs) []) chunks in
  fold_left (fun chunks func => chunks ++ [func_chunk file_path func])
    (dict_get (fs_functions fs) []) chunks.

(** [file.endswith('.py')] *)
Definition endswith (s suffix : string) : bool :=
  let n := String.length s in
  let k := String.length suffix in
  (k <=? n)%nat && String.eqb (String.substring (n - k) k s) suffix.

Section Service.
Variable get_docstring : node -> option string.
(** [open(file_path).read()], [ast.parse] and [str(e)]. *)
Variable read_file : string -> result string.
Variable ast_parse : string -> result node.
Variable str_exn : exn -> string.
(** [os.walk] (the triples [(root, dirs, files)]) and [os.path.join]. *)
Variable os_walk : string -> list (string * list string * list string).
Variable os_path_join : string -> string -> string.

(** The [try] block of [parse_python_file]. *)
Definition analyze (path : string) : result file_structure :=
  content <- read_file path ;;
  tree <- ast_parse content ;;
  v <- visit get_docstring tree (init_visitor content) ;;
  let v := filter_methods_from_functions v in
  Ok (mk_file_structure path None (Some (imports v)) (Some (classes v))
        (Some (functions v)) (Some (variables v))).

(** [parse_python_file]: [except Exception] turns any failure into the
    error dictionary. *)
Definition parse_python_file (path : string) : file_structure :=
  match analyze path with
  | Ok fs => fs
  | Raise e => mk_file_structure path (Some (str_exn e)) None None None None
  end.

(** [analyze_repository]: the value of [result['files']]. *)
Definition analyze_repository (repo_path : string) : list file_structure :=
  fold_left
    (fun result '(root, _, files) =>
       fold_left
         (fun result file =>
            if endswith file ".py" then
              let file_path := os_path_join root file in
              let file_structure := parse_python_file file_path in
              result ++ [file_structure]
            else result)
         files result)
    (os_walk repo_path) [].
End Service.

(** ** EmbeddingService *)

(** [sep.join(l)] *)
Fixpoint join_with (sep : string) (l : list string) : string :=
  match l with
  | [] => ""
  | [x] => x
  | x :: rest => (x ++ sep ++ join_with sep rest)%string
  end.

(** [chunk['type'] in ['method', 'function']] *)
Definition is_callable (ch : chunk) : bool :=
  String.eqb (chunk_type ch) "method" || String.eqb (chunk_type ch) "function".

(** [f"{p['name']}: {p.get('type', 'any')}"] *)
Definition param_text (p : param_info) : string :=
  (param_name p ++ ": " ++ dict_get (param_type p) "any")%string.

(** [_prepare_text_for_embedding]; [None] is the [KeyError] of
    [chunk['class_name']] on a method chunk without that key. *)
Definition _prepare_text_for_embedding (ch : chunk) : option string :=
  let parts := [] in
  let parts := parts ++ [(chunk_type ch ++ ": " ++ chunk_name ch)%string] in
  match
    (if String.eqb (chunk_type ch) "method" then
       match chunk_class_name ch with
       | Some c => Some (parts ++ [("class: " ++ c)%string])
       | None => None
       end
     else Some parts)
  with
  | None => None
  | Some parts =>
      let parts :=
        if String.eqb (chunk_docstring ch) "" then parts
        else parts ++ [("docstring: " ++ chunk_docstring ch)%string] in
      let parts :=
        match chunk_params ch with
        | Some (p :: ps) =>
            if is_callable ch then
              let params_str := join_with ", " (map param_text (p :: ps)) in
              parts ++ [("parameters: " ++ params_str)%string]
            else parts
        | _ => parts
        end in
      let parts :=
        match chunk_returns ch with
        | Some (Some r) =>
            if is_callable ch && negb (String.eqb r "") then
              parts ++ [("returns: " ++ r)%string]
            else parts
        | _ => parts
        end in
      let parts := parts ++ [("code: " ++ chunk_content ch)%string] in
      Some (join_lines parts)
  end.

(** ** DocumentationService *)

(** [{'name', 'type', 'description', 'default'?}] *)
Record param_doc : Type := mk_param_doc {
  pdoc_name : string;
  pdoc_type : string;
  pdoc_description : string;
  pdoc_default : option string
}.

(** [{'name', 'description', 'parameters', 'returns'}] *)
Record callable_doc : Type := mk_callable_doc {
  cdoc_name : string;
  cdoc_description : string;
  cdoc_parameters : list param_doc;
  cdoc_returns : string
}.

(** [{'name', 'description', 'methods'}] *)
Record class_doc : Type := mk_class_doc {
  kdoc_name : string;
  kdoc_description : string;
  kdoc_methods : list callable_doc
}.

(** [{'name', 'path', 'description', 'classes', 'functions'}] *)
Record module_doc : Type := mk_module_doc {
  mdoc_name : string;
  mdoc_path : string;
  mdoc_description : string;
  mdoc_classes : list class_doc;
  mdoc_functions : list callable_doc
}.

(** [{'repository_id', 'modules'}] *)
Record documentation : Type := mk_documentation {
  doc_repository_id : string;
  doc_modules : list module_doc
}.

(** [str(n)] for the result of [len]. *)
Definition str_nat (n : nat) : string := NilZero.string_of_uint (Nat.to_uint n).

(** [_format_parameters] *)
Definition _format_parameters (params : list param_info) : list param_doc :=
  fold_left
    (fun formatted param =>
       let param_doc :=
         mk_param_doc (param_name param) (dict_get (param_type param) "any")
           "No description available." None in
       let param_doc :=
         match param_default param with
         | Some d =>
             mk_param_doc (pdoc_name param_doc) (pdoc_type param_doc)
               (pdoc_description param_doc) (Some d)
         | None => param_doc
         end in
       formatted ++ [param_doc])
    params [].

(** [_generate_module_description] *)
Definition _generate_module_description (fs : file_structure) : string :=
  let num_classes := List.length (dict_get (fs_classes fs) []) in
  let num_functions := List.length (dict_get (fs_functions fs) []) in
  let description :=
    ("This module contains " ++ str_nat num_classes ++ " classes and "
     ++ str_nat num_functions ++ " functions.")%string in
  let description :=
    if (0 <? num_classes)%nat then
      let class_names := map class_name (dict_get (fs_classes fs) []) in
      (description ++ " Classes: " ++ join_with ", " class_names ++ ".")%string
    else description in
  let description :=
    if (0 <? num_functions)%nat then
      let function_names := map func_name (dict_get (fs_functions fs) []) in
      (description ++ " Functions: " ++ join_with ", " function_names ++ ".")%string
    else description in
  description.

(** The dictionary built for a method or a function. *)
Definition callable_doc_of (f : func_info) : callable_doc :=
  mk_callable_doc (func_name f) (dict_get (func_docstring f) "No description available.")
    (_format_parameters (func_params f)) (dict_get (func_returns f) "None").

Section Documentation.
(** [os.path.basename] *)
Variable basename : string -> string.

(** [_generate_module_documentation] *)
Definition _generate_module_documentation (fs : file_structure) : module_doc :=
  let file_path := file_path fs in
  let module_name := basename file_path in
  let description := _generate_module_description fs in
  let classes :=
    fold_left
      (fun classes class_info =>
         let methods :=
           fold_left (fun methods method => methods ++ [callable_doc_of method])
             (class_methods class_info) [] in
         let class_doc :=
           mk_class_doc (class_name class_info)
             (dict_get (class_docstring class_info) "No description available.")
             methods in
         classes ++ [class_doc])
      (dict_get (fs_classes fs) []) [] in
  let functions :=
    fold_left (fun functions func => functions ++ [callable_doc_of func])
      (dict_get (fs_functions fs) []) [] in
  mk_module_doc module_name file_path description classes functions.

(** [generate_documentation], on the value of [repo_structure['files']]. *)
Definition generate_documentation (repo_id : string) (files : list file_structure)
  : documentation :=
  mk_documentation repo_id
    (fold_left
       (fun modules file_structure =>
          modules ++ [_generate_module_documentation file_structure])
       files []).
End Documentation.

(** * Definitions used in the statements *)

(** ** Trees and traversals *)

Definition opt_nodes (o : option node) : list node :=
  match o with
  | Some c => [c]
  | None => []
  end.

(** [d] is [n] or one of its direct or transitive child nodes. *)
Inductive subnode (d : node) : node -> Prop :=
| subnode_self : subnode d d
| subnode_child (c n : node) :
    In c (iter_child_nodes n) -> subnode d c -> subnode d n.

(** The records of a whole tree, in the order of the traversal: those of
    the node itself, then those of each child node in turn. *)
Fixpoint collect {X : Type} (own : node -> list X) (n : node) : list X :=
  own n ++ for_child_nodes (fun c acc => acc ++ collect own c) n [].

(** The records a node contributes by itself. *)
Section OwnRecords.
Variable get_docstring : node -> option string.
Variable src : list string.

Definition own_classes (n : node) : list class_info :=
  match n with
  | ClassDef _ _ _ _ _ _ =>
      match class_record get_docstring src n with
      | Ok c => [c]
      | Raise _ => []
      end
  | _ => []
  end.

Definition own_functions (n : node) : list func_info :=
  if is_FunctionDef n then
    match _process_function get_docstring src n with
    | Ok f => [f]
    | Raise _ => []
    end
  else [].

Definition target_variable (a : attrs) (value target : node) : list variable_info :=
  match target with
  | Name _ id =>
      match lineno a, _get_node_source src value with
      | Some line, Ok val => [mk_variable id line val]
      | _, _ => []
      end
  | _ => []
  end.

Definition own_variables (n : node) : list variable_info :=
  match n with
  | Assign a targets value => flat_map (target_variable a value) targets
  | _ => []
  end.
End OwnRecords.

(** The part of the [visit_*] method of a node that precedes its call of
    [generic_visit]. *)
Definition pre_visit (get_docstring : node -> option string) (n : node)
  (v : visitor) : result visitor :=
  match n with
  | Import a names => import_names a None names v
  | ImportFrom a module names => import_names a module names v
  | ClassDef _ _ _ _ _ _ =>
      c <- class_record get_docstring (source_lines v) n ;;
      Ok (mk_visitor (source_lines v) (imports v) (classes v ++ [c])
            (functions v) (variables v))
  | FunctionDef _ _ _ _ _ _ =>
      func_info <- _process_function get_docstring (source_lines v) n ;;
      Ok (mk_visitor (source_lines v) (imports v) (classes v)
            (functions v ++ [func_info]) (variables v))
  | Assign a targets value => assign_targets a targets value v
  | _ => Ok v
  end.

(** A visitor state extended at the end of three of its lists. *)
Definition extends (v v' : visitor) (cs : list class_info) (fs : list func_info)
  (vs : list variable_info) : Prop :=
  source_lines v' = source_lines v /\
  classes v' = classes v ++ cs /\
  functions v' = functions v ++ fs /\
  variables v' = variables v ++ vs.

(** ** A small file and its syntax tree *)

Definition at_ (l c el ec : Z) : attrs :=
  mk_attrs (Some l) (Some c) (Some el) (Some ec).

Definition sample_source : string :=
  "import os" ++ String "010" (
  "class Foo:" ++ String "010" (
  "    'doc'" ++ String "010" (
  "    def bar(self, x, y=5):" ++ String "010" (
  "        return x" ++ String "010" (
  "def baz():" ++ String "010" (
  "    x = 1" ++ String "010" "")))))).

Definition sample_bar : node :=
  FunctionDef (at_ 4 4 5 16) "bar"
    (Arguments no_attrs []
       [Arg (at_ 4 12 4 16) "self" None; Arg (at_ 4 18 4 19) "x" None;
        Arg (at_ 4 21 4 22) "y" None]
       None [] [] None [Other (at_ 4 23 4 24) []])
    [Other (at_ 5 8 5 16) [Name (at_ 5 15 5 16) "x"]] [] None.

Definition sample_baz : node :=
  FunctionDef (at_ 6 0 7 9) "baz" (Arguments no_attrs [] [] None [] [] None [])
    [Assign (at_ 7 4 7 9) [Name (at_ 7 4 7 5) "x"] (Other (at_ 7 8 7 9) [])] [] None.

Definition sample_tree : node :=
  Module no_attrs
    [Import (at_ 1 0 1 9) [Alias (at_ 1 7 1 9) "os" None];
     ClassDef (at_ 2 0 5 16) "Foo" [] []
       [Other (at_ 3 4 3 9) [Other (at_ 3 4 3 9) []]; sample_bar] [];
     sample_baz].

Definition sample_docstring (n : node) : option string :=
  match n with
  | ClassDef _ "Foo" _ _ _ _ => Some "doc"
  | _ => None
  end.

Definition sample_file_structure : file_structure :=
  mk_file_structure "a.py" None
    (Some [mk_import "os" None 1])
    (Some [mk_class "Foo" (2, 5)
             [mk_func "bar" (4, 5)
                ("def bar(self, x, y=5):" ++ String "010" "        return x")
                None
                [mk_param "self" None None; mk_param "x" None None;
                 mk_param "y" None (Some "5")] None]
             ("class Foo:" ++ String "010" (
              "    'doc'" ++ String "010" (
              "    def bar(self, x, y=5):" ++ String "010" "        return x")))
             (Some "doc") None])
    (Some [mk_func "baz" (6, 7)
             ("def baz():" ++ String "010" "    x = 1") None [] None])
    (Some [mk_variable "x" 7 "1"]).

(** ** Chunks, error dictionaries and repository runs *)

(** The chunks of one class: the class chunk, then one chunk per method. *)
Definition chunks_of_class (file_path : string) (c : class_info) : list chunk :=
  class_chunk file_path c :: map (method_chunk file_path c) (class_methods c).

(** The error dictionary of [parse_python_file]. *)
Definition error_record (path msg : string) : file_structure :=
  mk_file_structure path (Some msg) None None None None.

(** A file structure with its four lists and no error. *)
Definition is_full (fs : file_structure) : bool :=
  negb (hasattr (fs_error fs)) && hasattr (fs_imports fs) && hasattr (fs_classes fs)
  && hasattr (fs_functions fs) && hasattr (fs_variables fs).

(** An error dictionary: an error and none of the four lists. *)
Definition is_error (fs : file_structure) : bool :=
  hasattr (fs_error fs) && negb (hasattr (fs_imports fs))
  && negb (hasattr (fs_classes fs)) && negb (hasattr (fs_functions fs))
  && negb (hasattr (fs_variables fs)).

(** The paths of the files of a repository whose name ends in [.py], in
    the order of the walk. *)
Definition py_paths (os_walk : string -> list (string * list string * list string))
  (os_path_join : string -> string -> string) (repo_path : string) : list string :=
  flat_map
    (fun '(root, _, files) =>
       map (os_path_join root) (filter (fun file => endswith file ".py") files))
    (os_walk repo_path).

(** A repository of two Python files, the first of which does not parse. *)
Definition two_files_walk (_ : string) : list (string * list string * list string) :=
  [("repo", [], ["a.py"; "b.py"; "notes.txt"])].

Definition two_files_join (root file : string) : string :=
  (root ++ "/" ++ file)%string.

Definition two_files_read (path : string) : result string :=
  if String.eqb path "repo/a.py" then Ok "def (" else Ok sample_source.

Definition two_files_parse (content : string) : result node :=
  if String.eqb content "def (" then Raise (SyntaxError "invalid syntax")
  else Ok sample_tree.

Definition two_files_str (e : exn) : string :=
  match e with
  | SyntaxError msg | OSError msg => msg
  | AttributeError => "AttributeError"
  | IndexError => "list index out of range"
  end.

(** ** Function and variable records *)

(** A file whose only function definitions are [async def]s, one in a class
    body and one at module level. *)
Definition async_source : string :=
  "class A:" ++ String "010" (
  "    async def m(self):" ++ String "010" (
  "        pass" ++ String "010" (
  "async def g():" ++ String "010" (
  "    pass" ++ String "010" "")))).

Definition async_tree : node :=
  Module no_attrs
    [ClassDef (at_ 1 0 3 12) "A" [] []
       [AsyncFunctionDef (at_ 2 4 3 12) "m"
          (Arguments no_attrs [] [Arg (at_ 2 16 2 20) "self" None] None [] [] None [])
          [Other (at_ 3 8 3 12) []] [] None] [];
     AsyncFunctionDef (at_ 4 0 5 8) "g"
       (Arguments no_attrs [] [] None [] [] None []) [Other (at_ 5 4 5 8) []] [] None].

Definition async_visitor : visitor :=
  mk_visitor (splitlines async_source) []
    [mk_class "A" (1, 3) []
       ("class A:" ++ String "010" (
        "    async def m(self):" ++ String "010" "        pass")) None None]
    [] [].

(** The variable records of the assignments that are statements of the
    module body itself. *)
Definition top_level_variables (src : list string) (tree : node) : list variable_info :=
  match tree with
  | Module _ body => flat_map (own_variables src) body
  | _ => []
  end.

(** The records a successful [visit_Assign] appends: one per target that
    is a plain name. *)
Definition name_targets (line : Z) (val : string) (targets : list node)
  : list variable_info :=
  flat_map
    (fun target =>
       match target with
       | Name _ id => [mk_variable id line val]
       | _ => []
       end)
    targets.

(** ** End-line resolution *)





(** ** Chunk identifiers *)

(** [process_repository]: the loop [all_chunks.extend(chunks)] over the
    file structures of a repository run. *)
Definition all_chunks (files : list file_structure) : list chunk :=
  fold_left (fun all_chunks fs => all_chunks ++ extract_chunks fs) files [].

(** What a chunk identifier is made of. *)
Inductive chunk_key : Type :=
| KClass (path name : string)
| KMethod (path class method : string)
| KFunction (path name : string).

Definition render (k : chunk_key) : string :=
  match k with
  | KClass path name => path ++ ":class:" ++ name
  | KMethod path class method => path ++ ":method:" ++ class ++ "." ++ method
  | KFunction path name => path ++ ":function:" ++ name
  end%string.

Definition keys_of_class (path : string) (c : class_info) : list chunk_key :=
  KClass path (class_name c)
  :: map (fun m => KMethod path (class_name c) (func_name m)) (class_methods c).

Definition keys_of_file (fs : file_structure) : list chunk_key :=
  flat_map (keys_of_class (file_path fs)) (dict_get (fs_classes fs) [])
  ++ map (fun f => KFunction (file_path fs) (func_name f)) (dict_get (fs_functions fs) []).

Definition key_path (k : chunk_key) : string :=
  match k with
  | KClass path _ | KMethod path _ _ | KFunction path _ => path
  end.

(** [ch] occurs in [s]. *)
Fixpoint has_char (ch : ascii) (s : string) : bool :=
  match s with
  | EmptyString => false
  | String c s' => Ascii.eqb c ch || has_char ch s'
  end.

(** A name without [:] and without [.], as every Python identifier is. *)
Definition plain_name (s : string) : bool :=
  negb (has_char ":" s) && negb (has_char "." s).

(** The names of a file structure are plain, and no name is used twice
    among its classes, among the methods of one class, or among its
    functions. *)
Definition distinct_names (fs : file_structure) : Prop :=
  let cs := dict_get (fs_classes fs) [] in
  let fns := dict_get (fs_functions fs) [] in
  NoDup (map class_name cs)
  /\ (forall c, In c cs -> NoDup (map func_name (class_methods c)))
  /\ NoDup (map func_name fns)
  /\ (forall c, In c cs -> plain_name (class_name c) = true)
  /\ (forall c m, In c cs -> In m (class_methods c) -> plain_name (func_name m) = true)
  /\ (forall f, In f fns -> plain_name (func_name f) = true).

Definition key_plain (k : chunk_key) : Prop :=
  match k with
  | KClass _ name | KFunction _ name => plain_name name = true
  | KMethod _ class method => plain_name class = true /\ plain_name method = true
  end.

(** The text of an identifier after its path: [kind:qualified_name]. *)
Definition kind_of (k : chunk_key) : string :=
  match k with
  | KClass _ _ => "class"
  | KMethod _ _ _ => "method"
  | KFunction _ _ => "function"
  end.

Definition qualified_name (k : chunk_key) : string :=
  match k with
  | KClass _ name | KFunction _ name => name
  | KMethod _ class method => class ++ String "." method
  end%string.

(** A file that defines the function [f] twice. *)
Definition redefined_source : string :=
  "def f():" ++ String "010" (
  "    pass" ++ String "010" (
  "def f():" ++ String "010" (
  "    pass" ++ String "010" ""))).

Definition redefined_tree : node :=
  Module no_attrs
    [FunctionDef (at_ 1 0 2 8) "f" (Arguments no_attrs [] [] None [] [] None [])
       [Other (at_ 2 4 2 8) []] [] None;
     FunctionDef (at_ 3 0 4 8) "f" (Arguments no_attrs [] [] None [] [] None [])
       [Other (at_ 4 4 4 8) []] [] None].

Definition redefined_file_structure : file_structure :=
  mk_file_structure "a.py" None (Some []) (Some [])
    (Some [mk_func "f" (1, 2) ("def f():" ++ String "010" "    pass") None [] None;
           mk_func "f" (3, 4) ("def f():" ++ String "010" "    pass") None [] None])
    (Some []).

(** ** Parameters and their defaults *)

(** The example of the specification: [def f(a, b, c=1, d=2): pass]. *)
Definition four_params_source : string := "def f(a, b, c=1, d=2): pass".

Definition four_params_def : node :=
  FunctionDef (at_ 1 0 1 27) "f"
    (Arguments no_attrs []
       [Arg (at_ 1 6 1 7) "a" None; Arg (at_ 1 9 1 10) "b" None;
        Arg (at_ 1 12 1 13) "c" None; Arg (at_ 1 17 1 18) "d" None]
       None [] [] None
       [Other (at_ 1 14 1 15) []; Other (at_ 1 19 1 20) []])
    [Other (at_ 1 23 1 27) []] [] None.

(** A function whose only parameter is positional-only and has a default:
    [def f(a=1, /): pass].  [ast.parse] puts [a] in [posonlyargs] and its
    default in [defaults], and leaves [args] empty. *)
Definition posonly_source : string := "def f(a=1, /): pass".

Definition posonly_def : node :=
  FunctionDef (at_ 1 0 1 19) "f"
    (Arguments no_attrs [Arg (at_ 1 6 1 7) "a" None] [] None [] [] None
       [Other (at_ 1 8 1 9) []])
    [Other (at_ 1 15 1 19) []] [] None.

(** A repository of two Python files: the text of [a.py] is no Python,
    and [b.py] holds [def f(a=1, /): pass], which [ast.parse] accepts. *)
Definition posonly_repo_read (path : string) : result string :=
  if String.eqb path "repo/a.py" then Ok "def (" else Ok posonly_source.

Definition posonly_repo_parse (content : string) : result node :=
  if String.eqb content "def (" then Raise (SyntaxError "invalid syntax (<unknown>, line 1)")
  else Ok (Module no_attrs [posonly_def]).

(** The number of files, among those of the given paths, whose text is read
    and rejected by [ast.parse]. *)
Definition parse_failures (read_file : string -> result string)
  (ast_parse : string -> result node) (paths : list string) : nat :=
  List.length
    (filter
       (fun path =>
          match read_file path with
          | Ok content =>
              match ast_parse content with
              | Ok _ => false
              | Raise _ => true
              end
          | Raise _ => false
          end)
       paths).

(** ** Spans of the source text *)

(** The number of characters of a text up to and including its [k]-th line
    feed: the offset at which line [k + 1] starts. *)
Fixpoint line_start (k : nat) (s : list ascii) {struct s} : nat :=
  match k, s with
  | O, _ => O
  | S _, [] => O
  | S k', c :: s' =>
      S (if Ascii.eqb c "010" then line_start k' s' else line_start k s')
  end.

(** The substring of the source delimited by a span: from column [c] of
    line [l] up to column [ec] of line [el], lines being ended by line
    feeds and counted from 1, columns counting characters from 0. *)
Definition span_text (source : string) (l c el ec : nat) : string :=
  let chars := list_ascii_of_string source in
  let start := (line_start (l - 1) chars + c)%nat in
  let stop := (line_start (el - 1) chars + ec)%nat in
  string_of_list_ascii (firstn (stop - start) (skipn start chars)).

(** A file whose first line is a comment that holds a form feed. *)
Definition form_feed_source : string :=
  "# a" ++ String "012" ("b" ++ String "010" (
  "def f():" ++ String "010" (
  "    return 1" ++ String "010" ""))).

Definition form_feed_def : node :=
  FunctionDef (at_ 2 0 3 12) "f" (Arguments no_attrs [] [] None [] [] None [])
    [Other (at_ 3 4 3 12) [Other (at_ 3 11 3 12) []]] [] None.

(** The parameter record of an [arg] node, before the defaults. *)
Definition arg_param (src : list string) (arg : node) (p : param_info) : Prop :=
  exists a annotation,
    arg = Arg a (param_name p) annotation
    /\ param_default p = None
    /\ match annotation with
       | Some ann => exists t, _get_node_source src ann = Ok t /\ param_type p = Some t
       | None => param_type p = None
       end.

(** The defaults, in order, set on as many parameters from the front. *)
Fixpoint with_defaults (texts : list string) (ps : list param_info) : list param_info :=
  match texts, ps with
  | t :: texts', p :: ps' => set_default t p :: with_defaults texts' ps'
  | _, _ => ps
  end.

Definition LF : ascii := "010".

(** Every line boundary of the text is a line feed. *)
Definition lf_only (s : string) : bool :=
  forallb (fun ch => negb (is_line_boundary ch) || Ascii.eqb ch LF)
    (list_ascii_of_string s).

(** The lines of a text, each followed by a line feed. *)
Definition flat (lines : list (list ascii)) : list ascii :=
  flat_map (fun line => line ++ [LF]) lines.

Definition chars (s : string) : list ascii := list_ascii_of_string s.

(** The characters of the model are the code points below 256.  The
    columns of a node of [ast.parse] are offsets in the UTF-8 encoding of
    its line, in which a code point below 128 takes one byte and the
    others here take two. *)
Definition utf8_width (ch : ascii) : nat :=
  if (nat_of_ascii ch <? 128)%nat then 1%nat else 2%nat.

(** The number of characters of a line that lie before the byte offset
    [b]. *)
Fixpoint char_column (line : list ascii) (b : nat) : nat :=
  match line with
  | [] => O
  | ch :: rest =>
      match b with
      | O => O
      | S _ => S (char_column rest (b - utf8_width ch))
      end
  end.

Fixpoint until_lf (s : list ascii) : list ascii :=
  match s with
  | [] => []
  | ch :: rest => if Ascii.eqb ch LF then [] else ch :: until_lf rest
  end.

(** Line [l] of the source, lines being ended by line feeds and counted
    from 1. *)
Definition source_line (source : string) (l : nat) : list ascii :=
  until_lf (skipn (line_start (l - 1) (chars source)) (chars source)).

(** The substring of the source delimited by the span of a node: from
    byte offset [c] of line [l] up to byte offset [ec] of line [el]. *)
Definition node_span_text (source : string) (l c el ec : nat) : string :=
  span_text source l (char_column (source_line source l) c)
    el (char_column (source_line source el) ec).

(** Every character of the text is an ASCII character. *)
Definition ascii_only (s : string) : bool :=
  forallb (fun ch => (nat_of_ascii ch <? 128)%nat) (chars s).

(** The line [x = 'e'; y = 2] with an accented [e], the code point 233,
    in the place of [e]: the string constant spans the bytes 4 to 8 of the
    line, its closing quote being the character 6. *)
Definition accent_source : string :=
  "x = '" ++ String "233" "'; y = 2".

Definition accent_constant : node := Other (at_ 1 4 1 8) [].

(** ** Import records, dotted names and valid indexes *)

(** [f"{module}.{name.name}" if module else name.name] *)
Definition imported_name (module : option string) (name : string) : string :=
  match module with
  | Some m => if String.eqb m "" then name else (m ++ "." ++ name)%string
  | None => name
  end.

(** The import record of one name of an import statement on line [line]. *)
Definition alias_import (line : option Z) (module : option string) (name : node)
  : list import_info :=
  match name, line with
  | Alias _ nm asname, Some l => [mk_import (imported_name module nm) asname l]
  | _, _ => []
  end.

(** The import records a node contributes by itself. *)
Definition own_imports (n : node) : list import_info :=
  match n with
  | Import a names => flat_map (alias_import (lineno a) None) names
  | ImportFrom a module names => flat_map (alias_import (lineno a) module) names
  | _ => []
  end.

(** The expression [root.attr1.attr2...], with any positions. *)
Definition attribute_chain (a0 : attrs) (root : string) (items : list (attrs * string))
  : node :=
  fold_left (fun value item => Attribute (fst item) value (snd item)) items (Name a0 root).

(** [i] is an index of a sequence of length [n], counted from the start
    or from the end. *)
Definition valid_index (n i : Z) : Prop := - n <= i < n.

(** Two parameter records with the same name and the same type. *)
Definition same_param (p q : param_info) : Prop :=
  param_name p = param_name q /\ param_type p = param_type q.

(** The name and the type of the record of an [arg] node. *)
Definition arg_named (src : list string) (arg : node) (p : param_info) : Prop :=
  exists a annotation,
    arg = Arg a (param_name p) annotation
    /\ match annotation with
       | Some ann => exists t, _get_node_source src ann = Ok t /\ param_type p = Some t
       | None => param_type p = None
       end.

(** The qualified name of a chunk. *)
Definition chunk_qualified_name (ch : chunk) : string :=
  match chunk_class_name ch with
  | Some c => (c ++ "." ++ chunk_name ch)%string
  | None => chunk_name ch
  end.

(** The documentation entry of a parameter. *)
Definition param_doc_of (p : param_info) : param_doc :=
  mk_param_doc (param_name p) (dict_get (param_type p) "any")
    "No description available." (param_default p).

(** The documentation entry of a class. *)
Definition class_doc_of (c : class_info) : class_doc :=
  mk_class_doc (class_name c)
    (dict_get (class_docstring c) "No description available.")
    (map callable_doc_of (class_methods c)).

(** The names of the declarations of a module documentation: each class
    followed by its methods, then the functions. *)
Definition documented_names (m : module_doc) : list string :=
  flat_map (fun k => kdoc_name k :: map cdoc_name (kdoc_methods k)) (mdoc_classes m)
  ++ map cdoc_name (mdoc_functions m).

(** [def f(a=1, /, b=2): pass]: [a] is positional-only, so [args] holds
    [b] alone and [defaults] both defaults. *)
Definition two_defaults_source : string := "def f(a=1, /, b=2): pass".

Definition two_defaults_def : node :=
  FunctionDef (at_ 1 0 1 24) "f"
    (Arguments no_attrs [Arg (at_ 1 6 1 7) "a" None] [Arg (at_ 1 14 1 15) "b" None]
       None [] [] None [Other (at_ 1 8 1 9) []; Other (at_ 1 16 1 17) []])
    [Other (at_ 1 20 1 24) []] [] None.

(** The lines of the text prepared for a chunk that lie between its first
    and its last line. *)
Definition embedding_middle (ch : chunk) : list string :=
  (if String.eqb (chunk_type ch) "method" then
     match chunk_class_name ch with
     | Some c => [("class: " ++ c)%string]
     | None => []
     end
   else [])
  ++ (if String.eqb (chunk_docstring ch) "" then []
      else [("docstring: " ++ chunk_docstring ch)%string])
  ++ match chunk_params ch with
     | Some (p :: ps) =>
         if is_callable ch then
           [("parameters: " ++ join_with ", " (map param_text (p :: ps)))%string]
         else []
     | _ => []
     end
  ++ match chunk_returns ch with
     | Some (Some r) =>
         if is_callable ch && negb (String.eqb r "") then [("returns: " ++ r)%string]
         else []
     | _ => []
     end.

(** * Properties *)

(** ** Loops over child nodes *)

Section ChildLoops.
Context {B : Type} (f : node -> B -> B).

Lemma each_app (l1 l2 : list node) (b : B) :
  each f (l1 ++ l2) b = each f l2 (each f l1 b).
Proof. unfold each. apply fold_left_app. Qed.

Lemma each_opt_nodes (o : option node) (b : B) :
  each_opt f o b = each f (opt_nodes o) b.
Proof. destruct o; reflexivity. Qed.

Lemma each_opts_nodes (l : list (option node)) (b : B) :
  each_opts f l b = each f (flat_map opt_nodes l) b.
Proof.
  revert b. induction l as [|o l IH]; intro b; [reflexivity|].
  cbn [flat_map]. rewrite each_app, <- each_opt_nodes, <- IH. reflexivity.
Qed.

Lemma each_one (c : node) (b : B) : f c b = each f [c] b.
Proof. reflexivity. Qed.
End ChildLoops.

Lemma each_collect (l acc : list node) :
  each (fun c acc => acc ++ [c]) l acc = acc ++ l.
Proof.
  revert acc. induction l as [|c l IH]; intro acc; cbn.
  - now rewrite app_nil_r.
  - unfold each in IH. rewrite IH, <- app_assoc. reflexivity.
Qed.

(** The loop over the child nodes is the loop over their list. *)
Lemma for_child_nodes_each {B : Type} (f : node -> B -> B) (n : node) (b : B) :
  for_child_nodes f n b = each f (iter_child_nodes n) b.
Proof.
  unfold iter_child_nodes.
  destruct n; cbn [for_child_nodes];
    repeat rewrite ?each_opt_nodes, ?each_opts_nodes;
    repeat match goal with
           | |- context [?g ?c (each ?g ?l ?b0)] =>
               rewrite (each_one g c (each g l b0))
           | |- context [each ?g ?l (?g ?c ?b0)] =>
               rewrite (each_one g c b0)
           end;
    rewrite ?each_collect; cbn [app];
    unfold each; cbn [fold_left]; rewrite ?fold_left_app; reflexivity.
Qed.

Lemma each_cons {B : Type} (f : node -> B -> B) (c : node) (l : list node) (b : B) :
  each f (c :: l) b = each f l (f c b).
Proof. reflexivity. Qed.

Lemma each_sizes (l : list node) (k : nat) :
  each (fun c acc => (node_size c + acc)%nat) l k
  = (list_sum (map node_size l) + k)%nat.
Proof.
  revert k. induction l as [|c l IH]; intro k; [reflexivity|].
  rewrite each_cons, IH. simpl. lia.
Qed.

Lemma node_size_eq (n : node) :
  node_size n = S (list_sum (map node_size (iter_child_nodes n))).
Proof.
  destruct n; cbn [node_size]; rewrite for_child_nodes_each, each_sizes; lia.
Qed.

Lemma child_smaller (n c : node) :
  In c (iter_child_nodes n) -> (node_size c < node_size n)%nat.
Proof.
  rewrite (node_size_eq n). generalize (iter_child_nodes n) as l.
  induction l as [|x l IH]; simpl; [tauto|].
  intros [->|H]; [lia|]. specialize (IH H). lia.
Qed.

(** Induction on syntax trees through the lists of child nodes. *)
Lemma node_children_ind (P : node -> Prop) :
  (forall n, (forall c, In c (iter_child_nodes n) -> P c) -> P n) ->
  forall n, P n.
Proof.
  intros step n.
  remember (node_size n) as k eqn:Hk.
  revert n Hk. induction k as [k IH] using lt_wf_ind.
  intros n ->. apply step. intros c Hc.
  apply (IH (node_size c)); [now apply child_smaller | reflexivity].
Qed.

Lemma subnode_trans (a b c : node) : subnode a b -> subnode b c -> subnode a c.
Proof.
  intros Hab Hbc. induction Hbc as [|x n Hx Hbx IH]; [assumption|].
  eapply subnode_child; eassumption.
Qed.

(** ** What one traversal collects *)

Lemma each_flat_map {X : Type} (g : node -> list X) (l : list node) (acc : list X) :
  each (fun c acc => acc ++ g c) l acc = acc ++ flat_map g l.
Proof.
  revert acc. induction l as [|c l IH]; intro acc; cbn [flat_map].
  - cbn. now rewrite app_nil_r.
  - rewrite each_cons, IH, app_assoc. reflexivity.
Qed.

Lemma collect_eq {X : Type} (own : node -> list X) (n : node) :
  collect own n = own n ++ flat_map (collect own) (iter_child_nodes n).
Proof.
  destruct n; cbn [collect]; rewrite for_child_nodes_each, each_flat_map; reflexivity.
Qed.

Lemma In_collect {X : Type} (own : node -> list X) (x : X) (n : node) :
  In x (collect own n) <-> exists d, subnode d n /\ In x (own d).
Proof.
  split.
  - induction n as [n IH] using node_children_ind.
    rewrite collect_eq, in_app_iff, in_flat_map.
    intros [H | [c [Hc H]]].
    + exists n. split; [constructor | assumption].
    + destruct (IH c Hc H) as [d [Hd Hx]].
      exists d. split; [eapply subnode_child; eassumption | assumption].
  - intros [d [Hd Hx]].
    induction Hd as [|c n Hc Hd IH]; rewrite collect_eq, in_app_iff.
    + now left.
    + right. rewrite in_flat_map. exists c. split; assumption.
Qed.

Lemma each_for_each {S : Type} (g : node -> S -> result S) (l : list node)
  (r : result S) :
  each (fun c acc => s <- acc ;; g c s) l r = s <- r ;; for_each l g s.
Proof.
  revert r. induction l as [|c l IH]; intro r.
  - destruct r; reflexivity.
  - rewrite each_cons, IH. destruct r; reflexivity.
Qed.

Section Traversal.
Variable get_docstring : node -> option string.

Lemma visit_unfold (n : node) (v : visitor) :
  visit get_docstring n v
  = v1 <- pre_visit get_docstring n v ;;
    for_each (iter_child_nodes n) (visit get_docstring) v1.
Proof.
  destruct n; cbn [visit pre_visit bind];
    try match goal with
        | |- context [bind ?r _] => destruct r; cbn [bind]; [|reflexivity]
        end;
    rewrite for_child_nodes_each, each_for_each; reflexivity.
Qed.

Lemma extends_refl (v : visitor) : extends v v [] [] [].
Proof. unfold extends. now rewrite !app_nil_r. Qed.

Lemma extends_trans (v1 v2 v3 : visitor) cs fs vs cs' fs' vs' :
  extends v1 v2 cs fs vs -> extends v2 v3 cs' fs' vs' ->
  extends v1 v3 (cs ++ cs') (fs ++ fs') (vs ++ vs').
Proof.
  unfold extends. intros (S1 & C1 & F1 & V1) (S2 & C2 & F2 & V2).
  rewrite S2, S1, C2, C1, F2, F1, V2, V1, !app_assoc. tauto.
Qed.

Lemma import_names_extends a module names v v' :
  import_names a module names v = Ok v' -> extends v v' [] [] [].
Proof.
  unfold import_names. revert v.
  induction names as [|name names IH]; intros v H; cbn [for_each] in H.
  - injection H as <-. apply extends_refl.
  - destruct name; try discriminate.
    destruct (lineno a); [|discriminate]. cbn [getattr bind] in H.
    apply IH in H. destruct H as (S1 & C1 & F1 & V1).
    cbn in S1, C1, F1, V1. repeat split; assumption.
Qed.

Lemma assign_targets_extends a targets value v v' :
  assign_targets a targets value v = Ok v' ->
  extends v v' [] [] (flat_map (target_variable (source_lines v) a value) targets).
Proof.
  unfold assign_targets. revert v.
  induction targets as [|t targets IH]; intros v H; cbn [for_each] in H.
  - injection H as <-. apply extends_refl.
  - cbn [flat_map].
    assert (Hskip : forall v1, for_each targets
              (fun target v0 =>
                 match target with
                 | Name _ id =>
                     line <- getattr (lineno a) ;;
                     val <- _get_node_source (source_lines v0) value ;;
                     Ok (mk_visitor (source_lines v0) (imports v0) (classes v0)
                           (functions v0) (variables v0 ++ [mk_variable id line val]))
                 | _ => Ok v0
                 end) v1 = Ok v' ->
              source_lines v1 = source_lines v ->
              extends v1 v' [] [] (flat_map (target_variable (source_lines v) a value) targets)).
    { intros v1 H1 Hs. rewrite <- Hs. now apply IH. }
    destruct t; cbn [target_variable app bind] in *;
      try (apply Hskip; [exact H | reflexivity]).
    destruct (lineno a) as [line|]; [|discriminate]. cbn [getattr bind] in H.
    destruct (_get_node_source (source_lines v) value) as [val|]; [|discriminate].
    cbn [bind] in H.
    apply Hskip in H; [|reflexivity].
    change (extends v v' ([] ++ []) ([] ++ [])
              ([mk_variable id line val]
               ++ flat_map (target_variable (source_lines v) a value) targets)).
    eapply extends_trans; [|exact H].
    repeat split; cbn; now rewrite ?app_nil_r.
Qed.

Lemma pre_visit_extends (n : node) (v v' : visitor) :
  pre_visit get_docstring n v = Ok v' ->
  extends v v' (own_classes get_docstring (source_lines v) n)
    (own_functions get_docstring (source_lines v) n)
    (own_variables (source_lines v) n).
Proof.
  destruct n; cbn [pre_visit]; intro H;
    try (injection H as <-; apply extends_refl);
    try (apply import_names_extends in H; exact H).
  - unfold own_classes, own_functions. cbn [is_FunctionDef own_variables].
    destruct (class_record _ _ _) as [c|]; [|discriminate].
    injection H as <-. repeat split; cbn; now rewrite ?app_nil_r.
  - unfold own_classes, own_functions. cbn [is_FunctionDef own_variables].
    destruct (_process_function _ _ _) as [f|]; [|discriminate].
    injection H as <-. repeat split; cbn; now rewrite ?app_nil_r.
  - apply assign_targets_extends in H. exact H.
Qed.

(** One traversal appends to [classes], [functions] and [variables] the
    records of every node of the tree, in the order of the traversal. *)
Lemma visit_extends (n : node) : forall v v',
  visit get_docstring n v = Ok v' ->
  extends v v' (collect (own_classes get_docstring (source_lines v)) n)
    (collect (own_functions get_docstring (source_lines v)) n)
    (collect (own_variables (source_lines v)) n).
Proof.
  induction n as [n IH] using node_children_ind. intros v v' H.
  rewrite visit_unfold in H.
  destruct (pre_visit get_docstring n v) as [v1|] eqn:Hpre; [|discriminate].
  cbn [bind] in H. apply pre_visit_extends in Hpre.
  rewrite !collect_eq.
  eapply extends_trans; [exact Hpre|].
  assert (Hs : source_lines v1 = source_lines v) by apply Hpre.
  rewrite <- Hs. clear Hpre Hs v.
  revert v1 H. induction (iter_child_nodes n) as [|c l IHl]; intros v1 H.
  - injection H as <-. apply extends_refl.
  - cbn [for_each] in H.
    destruct (visit get_docstring c v1) as [v2|] eqn:Hc; [|discriminate].
    cbn [bind] in H.
    apply IH in Hc; [|now left]. cbn [flat_map].
    eapply extends_trans; [exact Hc|].
    assert (Hs : source_lines v2 = source_lines v1) by apply Hc.
    rewrite <- Hs. apply IHl; [|exact H].
    intros c' Hc'. apply IH. now right.
Qed.
End Traversal.

Section TraversalReach.
Variable get_docstring : node -> option string.

Lemma for_each_visit_child (l : list node) : forall v v' c,
  for_each l (visit get_docstring) v = Ok v' ->
  In c l ->
  exists v1 v2,
    source_lines v1 = source_lines v /\ visit get_docstring c v1 = Ok v2.
Proof.
  induction l as [|x l IH]; intros v v' c H Hin; [destruct Hin|].
  cbn [for_each] in H.
  destruct (visit get_docstring x v) as [vx|] eqn:Hx; [|discriminate].
  cbn [bind] in H. destruct Hin as [->|Hin].
  - exists v, vx. split; [reflexivity | assumption].
  - destruct (IH _ _ _ H Hin) as (v1 & v2 & Hs & Hv).
    exists v1, v2. split; [|assumption].
    rewrite Hs. apply (visit_extends get_docstring x v vx Hx).
Qed.

(** A traversal that returns has run the [visit_*] method of every node
    of the tree. *)
Lemma visit_reaches (d n : node) :
  subnode d n -> forall v v',
  visit get_docstring n v = Ok v' ->
  exists v1 v2,
    source_lines v1 = source_lines v /\ pre_visit get_docstring d v1 = Ok v2.
Proof.
  induction 1 as [|c n Hc Hd IH]; intros v v' H; rewrite visit_unfold in H.
  - destruct (pre_visit get_docstring d v) as [v1|] eqn:Hpre; [|discriminate].
    exists v, v1. split; [reflexivity | assumption].
  - destruct (pre_visit get_docstring n v) as [v1|] eqn:Hpre; [|discriminate].
    cbn [bind] in H.
    destruct (for_each_visit_child _ _ _ _ H Hc) as (vc & vc' & Hs & Hv).
    destruct (IH _ _ Hv) as (w1 & w2 & Hw & Hp).
    exists w1, w2. split; [|assumption].
    rewrite Hw, Hs. apply (pre_visit_extends get_docstring n v v1 Hpre).
Qed.
End TraversalReach.

(** ** The filtering pass *)

Lemma method_signatures_spec (cs : list class_info) (s : signature) :
  In s (method_signatures cs) <->
  exists c m, In c cs /\ In m (class_methods c) /\ func_signature m = s.
Proof.
  unfold method_signatures.
  assert (inner : forall ms sigs,
    In s (fold_left (fun sigs m => set_add signature_eq_dec (func_signature m) sigs)
            ms sigs)
    <-> In s sigs \/ exists m, In m ms /\ func_signature m = s).
  { induction ms as [|m ms IH]; intro sigs; cbn [fold_left].
    - split; [tauto | intros [H | [m [[] _]]]; exact H].
    - rewrite IH, set_add_iff. split.
      + intros [[-> | H] | [m' [Hm' E]]]; [right; exists m; cbn; tauto | tauto |].
        right. exists m'. cbn. tauto.
      + intros [H | [m' [[-> | Hm'] E]]]; [tauto | left; left; now symmetry |].
        right. exists m'. tauto. }
  assert (outer : forall cs sigs,
    In s (fold_left
            (fun sigs c =>
               fold_left (fun sigs m => set_add signature_eq_dec (func_signature m) sigs)
                 (class_methods c) sigs) cs sigs)
    <-> In s sigs \/ exists c m, In c cs /\ In m (class_methods c) /\ func_signature m = s).
  { clear cs. induction cs as [|c cs IH]; intro sigs; cbn [fold_left].
    - split; [tauto | intros [H | (c & m & [] & _)]; exact H].
    - rewrite IH, inner. split.
      + intros [[H | (m & Hm & E)] | (c' & m & Hc' & Hm & E)]; [tauto | |].
        * right. exists c, m. cbn. tauto.
        * right. exists c', m. cbn. tauto.
      + intros [H | (c' & m & [-> | Hc'] & Hm & E)]; [tauto | |].
        * left. right. exists m. tauto.
        * right. exists c', m. tauto. }
  rewrite outer. cbn. split; [intros [[] | H]; exact H | tauto].
Qed.

Lemma filter_methods_from_functions_spec (v : visitor) (f : func_info) :
  In f (functions (filter_methods_from_functions v)) <->
  In f (functions v) /\
  forall c m, In c (classes v) -> In m (class_methods c) ->
    func_signature f <> func_signature m.
Proof.
  unfold filter_methods_from_functions. cbn [functions].
  rewrite filter_In, negb_true_iff. split; intros [Hin H]; split; try assumption.
  - intros c m Hc Hm E.
    apply set_mem_complete1 in H. apply H.
    apply method_signatures_spec. exists c, m. now rewrite E.
  - apply set_mem_complete2. intro Hs.
    apply method_signatures_spec in Hs. destruct Hs as (c & m & Hc & Hm & E).
    apply (H c m Hc Hm). now symmetry.
Qed.

(** ** No duplicate ownership *)

Lemma analyze_inv gd read_file ast_parse path fs :
  analyze gd read_file ast_parse path = Ok fs ->
  exists content tree v,
    read_file path = Ok content /\
    ast_parse content = Ok tree /\
    visit gd tree (init_visitor content) = Ok v /\
    fs = mk_file_structure path None
           (Some (imports (filter_methods_from_functions v)))
           (Some (classes (filter_methods_from_functions v)))
           (Some (functions (filter_methods_from_functions v)))
           (Some (variables (filter_methods_from_functions v))).
Proof.
  unfold analyze. intro H.
  destruct (read_file path) as [content|] eqn:Hr; [|discriminate]. cbn [bind] in H.
  destruct (ast_parse content) as [tree|] eqn:Hp; [|discriminate]. cbn [bind] in H.
  destruct (visit gd tree (init_visitor content)) as [v|] eqn:Hv; [|discriminate].
  cbn [bind] in H. injection H as <-.
  exists content, tree, v. auto.
Qed.

(** C1.  When the analysis of a file returns a file structure, that
    structure comes from one traversal followed by the filtering pass, and:
    the traversal has appended to [functions] the record of every
    [FunctionDef] node of the tree, methods included; after the filtering
    pass no record of [functions] has the [(name, line_range)] of a method
    of any class of the file; and every record whose [(name, line_range)]
    is that of no method is kept, whatever its name. *)
Theorem no_duplicate_ownership gd read_file ast_parse path fs :
  analyze gd read_file ast_parse path = Ok fs ->
  exists content tree v,
    read_file path = Ok content /\
    ast_parse content = Ok tree /\
    visit gd tree (init_visitor content) = Ok v /\
    fs_classes fs = Some (classes v) /\
    fs_functions fs = Some (functions (filter_methods_from_functions v)) /\
    (forall d, subnode d tree -> is_FunctionDef d = true ->
       exists f, _process_function gd (splitlines content) d = Ok f /\
                 In f (functions v)) /\
    (forall f c m,
       In f (dict_get (fs_functions fs) []) ->
       In c (dict_get (fs_classes fs) []) ->
       In m (class_methods c) ->
       (func_name f, func_line_range f) <> (func_name m, func_line_range m)) /\
    (forall f,
       In f (functions v) ->
       (forall c m, In c (classes v) -> In m (class_methods c) ->
          (func_name f, func_line_range f) <> (func_name m, func_line_range m)) ->
       In f (dict_get (fs_functions fs) [])).
Proof.
  intro H. apply analyze_inv in H.
  destruct H as (content & tree & v & Hr & Hp & Hv & ->).
  exists content, tree, v. cbn [fs_classes fs_functions dict_get].
  repeat (split; [first [assumption | reflexivity] |]).
  split; [|split].
  - intros d Hd Hf.
    destruct (visit_reaches gd d tree Hd _ _ Hv) as (v1 & v2 & Hs & Hpre).
    pose proof (visit_extends gd tree _ _ Hv) as (_ & _ & HF & _).
    cbn [init_visitor source_lines functions app] in Hs, HF.
    destruct d; try discriminate Hf. cbn [pre_visit] in Hpre. rewrite Hs in Hpre.
    match type of Hpre with
    | bind ?r _ = _ => destruct r as [f|] eqn:Hproc; [|discriminate]
    end.
    exists f. split; [reflexivity|].
    rewrite HF. apply In_collect.
    eexists. split; [exact Hd|].
    unfold own_functions. cbn [is_FunctionDef]. rewrite Hproc. now left.
  - intros f c m Hf Hc Hm.
    apply filter_methods_from_functions_spec in Hf. destruct Hf as [_ Hf].
    exact (Hf c m Hc Hm).
  - intros f Hf Hno. apply filter_methods_from_functions_spec. split; assumption.
Qed.

Lemma analyze_sample :
  analyze sample_docstring (fun _ => Ok sample_source) (fun _ => Ok sample_tree) "a.py"
  = Ok sample_file_structure.
Proof. vm_compute. reflexivity. Qed.

Lemma no_duplicate_ownership_witness :
  analyze sample_docstring (fun _ => Ok sample_source) (fun _ => Ok sample_tree) "a.py"
  = Ok sample_file_structure
  /\ forall f c m,
       In f (dict_get (fs_functions sample_file_structure) []) ->
       In c (dict_get (fs_classes sample_file_structure) []) ->
       In m (class_methods c) ->
       (func_name f, func_line_range f) <> (func_name m, func_line_range m).
Proof.
  split; [exact analyze_sample|].
  destruct (no_duplicate_ownership sample_docstring (fun _ => Ok sample_source)
              (fun _ => Ok sample_tree) "a.py" sample_file_structure analyze_sample)
    as (content & tree & v & _ & _ & _ & _ & _ & _ & H & _).
  exact H.
Defined.

(** ** Chunk extraction *)

Lemma fold_left_snoc {A B : Type} (g : A -> B) (l : list A) (acc : list B) :
  fold_left (fun acc x => acc ++ [g x]) l acc = acc ++ map g l.
Proof.
  revert acc. induction l as [|x l IH]; intro acc; cbn [fold_left map].
  - now rewrite app_nil_r.
  - rewrite IH, <- app_assoc. reflexivity.
Qed.

Lemma class_loop_eq (path : string) (cs : list class_info) (acc : list chunk) :
  fold_left
    (fun chunks c =>
       fold_left (fun chunks m => chunks ++ [method_chunk path c m])
         (class_methods c) (chunks ++ [class_chunk path c]))
    cs acc
  = acc ++ flat_map (chunks_of_class path) cs.
Proof.
  revert acc. induction cs as [|c cs IH]; intro acc; cbn [fold_left flat_map].
  - now rewrite app_nil_r.
  - rewrite IH, fold_left_snoc, <- !app_assoc. reflexivity.
Qed.

Lemma extract_chunks_eq (fs : file_structure) :
  extract_chunks fs
  = flat_map (chunks_of_class (file_path fs)) (dict_get (fs_classes fs) [])
    ++ map (func_chunk (file_path fs)) (dict_get (fs_functions fs) []).
Proof.
  unfold extract_chunks. rewrite fold_left_snoc, class_loop_eq. reflexivity.
Qed.

(** C6.  The chunks of a file structure are, for each class in order, its
    class chunk followed by the method chunks of its methods in order, each
    naming the class, and after all classes one function chunk per record
    of [functions] in order; their number is the number of classes plus the
    number of methods plus the number of functions. *)
Theorem extract_chunks_order (fs : file_structure) :
  let path := file_path fs in
  let cs := dict_get (fs_classes fs) [] in
  let fns := dict_get (fs_functions fs) [] in
  extract_chunks fs
  = flat_map
      (fun c => class_chunk path c :: map (method_chunk path c) (class_methods c)) cs
    ++ map (func_chunk path) fns
  /\ List.length (extract_chunks fs)
     = (List.length cs + list_sum (map (fun c => List.length (class_methods c)) cs)
        + List.length fns)%nat
  /\ (forall c, chunk_type (class_chunk path c) = "class"
                /\ chunk_name (class_chunk path c) = class_name c)
  /\ (forall c m, chunk_type (method_chunk path c m) = "method"
                  /\ chunk_name (method_chunk path c m) = func_name m
                  /\ chunk_class_name (method_chunk path c m) = Some (class_name c))
  /\ (forall f, chunk_type (func_chunk path f) = "function"
                /\ chunk_name (func_chunk path f) = func_name f).
Proof.
  cbv zeta. split; [apply extract_chunks_eq|].
  split; [|repeat split].
  rewrite extract_chunks_eq, length_app, length_map. f_equal.
  induction (dict_get (fs_classes fs) []) as [|c cs IH]; [reflexivity|].
  cbn [flat_map map]. rewrite length_app, IH. unfold chunks_of_class.
  cbn [List.length]. rewrite length_map. simpl. lia.
Qed.

(** ** Parse failures *)

Section Repository.
Variable get_docstring : node -> option string.
Variable read_file : string -> result string.
Variable ast_parse : string -> result node.
Variable str_exn : exn -> string.
Variable os_walk : string -> list (string * list string * list string).
Variable os_path_join : string -> string -> string.

Lemma files_loop_eq (root : string) (files : list string)
  (acc : list file_structure) :
  fold_left
    (fun result file =>
       if endswith file ".py" then
         result ++ [parse_python_file get_docstring read_file ast_parse str_exn
                      (os_path_join root file)]
       else result)
    files acc
  = acc ++ map (parse_python_file get_docstring read_file ast_parse str_exn)
             (map (os_path_join root)
                (filter (fun file => endswith file ".py") files)).
Proof.
  revert acc. induction files as [|file files IH]; intro acc;
    cbn [fold_left filter].
  - cbn. now rewrite app_nil_r.
  - rewrite IH. destruct (endswith file ".py"); [|reflexivity].
    cbn [map]. rewrite <- app_assoc. reflexivity.
Qed.

Lemma walk_loop_eq (w : list (string * list string * list string))
  (acc : list file_structure) :
  fold_left
    (fun result '(root, _, files) =>
       fold_left
         (fun result file =>
            if endswith file ".py" then
              result ++ [parse_python_file get_docstring read_file ast_parse str_exn
                           (os_path_join root file)]
            else result)
         files result)
    w acc
  = acc ++ map (parse_python_file get_docstring read_file ast_parse str_exn)
             (flat_map
                (fun '(root, _, files) =>
                   map (os_path_join root)
                     (filter (fun file => endswith file ".py") files)) w).
Proof.
  revert acc. induction w as [|[[root dirs] files] w IH]; intro acc;
    cbn [fold_left flat_map].
  - cbn. now rewrite app_nil_r.
  - rewrite IH, files_loop_eq, map_app, app_assoc. reflexivity.
Qed.

Lemma analyze_repository_eq (repo_path : string) :
  analyze_repository get_docstring read_file ast_parse str_exn os_walk os_path_join
    repo_path
  = map (parse_python_file get_docstring read_file ast_parse str_exn)
      (py_paths os_walk os_path_join repo_path).
Proof. unfold analyze_repository. apply walk_loop_eq. Qed.

Lemma parse_python_file_cases (path : string) :
  let fs := parse_python_file get_docstring read_file ast_parse str_exn path in
  file_path fs = path /\
  match analyze get_docstring read_file ast_parse path with
  | Ok _ => is_full fs = true /\ is_error fs = false
  | Raise e => fs = error_record path (str_exn e)
               /\ is_error fs = true /\ is_full fs = false
  end.
Proof.
  cbv zeta. unfold parse_python_file.
  destruct (analyze get_docstring read_file ast_parse path) as [fs|e] eqn:H.
  - apply analyze_inv in H. destruct H as (content & tree & v & _ & _ & _ & ->).
    repeat split.
  - repeat split.
Qed.
End Repository.

(** C4, the failing input.  In a run over the two files [a.py], whose text
    [ast.parse] rejects, and [b.py], which holds [def f(a=1, /): pass] and
    parses, there is one parse failure among the two files, yet the run
    yields two error dictionaries and no full file structure: the
    traversal of the tree of [b.py] raises [IndexError] when the default
    of its positional-only parameter is aligned. *)
Theorem parsed_file_without_structure :
  let paths := py_paths two_files_walk two_files_join "repo" in
  let files :=
    analyze_repository sample_docstring posonly_repo_read posonly_repo_parse
      two_files_str two_files_walk two_files_join "repo" in
  paths = ["repo/a.py"; "repo/b.py"]
  /\ parse_failures posonly_repo_read posonly_repo_parse paths = 1%nat
  /\ posonly_repo_read "repo/b.py" = Ok posonly_source
  /\ posonly_repo_parse posonly_source = Ok (Module no_attrs [posonly_def])
  /\ files = [error_record "repo/a.py" "invalid syntax (<unknown>, line 1)";
              error_record "repo/b.py" "list index out of range"]
  /\ List.length (filter is_full files) = 0%nat
  /\ List.length (filter is_error files) = 2%nat.
Proof. cbv zeta. repeat split; vm_compute; reflexivity. Qed.

(** C9.  A record of a repository run that carries an error is the error
    dictionary, which has no ['classes'] and no ['functions'] key, and
    [extract_chunks] returns the empty list for it. *)
Theorem error_record_no_chunks gd read_file ast_parse str_exn os_walk os_path_join
  (repo_path : string) (fs : file_structure) :
  In fs (analyze_repository gd read_file ast_parse str_exn os_walk os_path_join
           repo_path) ->
  fs_error fs <> None ->
  (exists msg, fs = mk_file_structure (file_path fs) (Some msg) None None None None)
  /\ extract_chunks fs = [].
Proof.
  rewrite analyze_repository_eq, in_map_iff. intros (path & <- & _) Herr.
  pose proof (parse_python_file_cases gd read_file ast_parse str_exn path) as [Hp H].
  cbv zeta in H. unfold parse_python_file in *.
  destruct (analyze gd read_file ast_parse path) as [fs|e] eqn:Ha.
  - apply analyze_inv in Ha. destruct Ha as (? & ? & ? & _ & _ & _ & ->).
    now contradiction Herr.
  - split; [|reflexivity]. exists (str_exn e). reflexivity.
Qed.

Lemma error_record_no_chunks_witness :
  In (error_record "repo/a.py" "invalid syntax")
     (analyze_repository sample_docstring two_files_read two_files_parse two_files_str
        two_files_walk two_files_join "repo")
  /\ fs_error (error_record "repo/a.py" "invalid syntax") <> None
  /\ extract_chunks (error_record "repo/a.py" "invalid syntax") = [].
Proof.
  assert (Hin : In (error_record "repo/a.py" "invalid syntax")
                  (analyze_repository sample_docstring two_files_read two_files_parse
                     two_files_str two_files_walk two_files_join "repo"))
    by (vm_compute; left; reflexivity).
  assert (Herr : fs_error (error_record "repo/a.py" "invalid syntax") <> None)
    by (cbn; discriminate).
  split; [exact Hin|]. split; [exact Herr|].
  exact (proj2 (error_record_no_chunks sample_docstring two_files_read two_files_parse
                  two_files_str two_files_walk two_files_join "repo" _ Hin Herr)).
Defined.

(** ** Where the records come from *)

Lemma own_functions_inv gd src (d : node) (f : func_info) :
  In f (own_functions gd src d) ->
  is_FunctionDef d = true /\ _process_function gd src d = Ok f.
Proof.
  unfold own_functions. destruct (is_FunctionDef d); [|intros []].
  destruct (_process_function gd src d); [|intros []].
  intros [<- | []]. split; reflexivity.
Qed.

Lemma own_classes_inv gd src (d : node) (c : class_info) :
  In c (own_classes gd src d) -> class_record gd src d = Ok c.
Proof.
  unfold own_classes. destruct d; try (intros []).
  destruct (class_record _ _ _); [|intros []]. intros [<- | []]. reflexivity.
Qed.

Lemma methods_loop_inv gd src (body : list node) : forall acc methods m,
  for_each body
    (fun item methods =>
       if is_FunctionDef item then
         method_info <- _process_function gd src item ;;
         Ok (methods ++ [method_info])
       else Ok methods) acc = Ok methods ->
  In m methods ->
  In m acc \/
  exists item, In item body /\ is_FunctionDef item = true
               /\ _process_function gd src item = Ok m.
Proof.
  induction body as [|item body IH]; intros acc methods m H Hm; cbn [for_each] in H.
  - injection H as <-. now left.
  - destruct (is_FunctionDef item) eqn:Hf.
    + destruct (_process_function gd src item) as [mi|] eqn:Hp; [|discriminate].
      cbn [bind] in H. destruct (IH _ _ _ H Hm) as [Hin | (it & Hit & Hfd & Hpr)].
      * apply in_app_iff in Hin. destruct Hin as [Hin | [<- | []]]; [now left|].
        right. exists item. cbn. tauto.
      * right. exists it. cbn. tauto.
    + cbn [bind] in H. destruct (IH _ _ _ H Hm) as [Hin | (it & Hit & Hfd & Hpr)].
      * now left.
      * right. exists it. cbn. tauto.
Qed.

(** The methods of a class record are the records of the [FunctionDef]
    nodes of the class body. *)
Lemma class_record_methods gd src (d : node) (c : class_info) (m : func_info) :
  class_record gd src d = Ok c ->
  In m (class_methods c) ->
  exists item, In item (iter_child_nodes d) /\ is_FunctionDef item = true
               /\ _process_function gd src item = Ok m.
Proof.
  destruct d; try discriminate. unfold class_record.
  destruct (getattr (lineno a)); [|discriminate]. cbn [bind].
  destruct (_get_end_line _); [|discriminate]. cbn [bind].
  destruct (_get_node_source _ _); [|discriminate]. cbn [bind].
  match goal with |- context [bind ?r _] => destruct r; [|discriminate] end.
  cbn [bind].
  match goal with |- context [bind ?r _] => destruct r as [ms|] eqn:Hms; [|discriminate] end.
  cbn [bind]. intros H Hm. injection H as <-. cbn [class_methods] in Hm.
  destruct (methods_loop_inv _ _ _ _ _ _ Hms Hm) as [[] | (item & Hit & Hf & Hp)].
  exists item. split; [|tauto].
  unfold iter_child_nodes. cbn [for_child_nodes]. rewrite !each_collect.
  cbn [app]. rewrite !in_app_iff. tauto.
Qed.

(** C10.  After a traversal, every record of [functions] (before or after
    the filtering pass) and every method of every class record is the
    record of a plain [FunctionDef] node of the tree; the visit of an
    [AsyncFunctionDef] node is [generic_visit] alone; so a tree in which
    every function definition is an [async def] yields no function record
    and no method. *)
Theorem async_defs_invisible gd (tree : node) (source : string) (v : visitor) :
  visit gd tree (init_visitor source) = Ok v ->
  (forall f, In f (functions v) \/ In f (functions (filter_methods_from_functions v)) ->
     exists d, subnode d tree /\ is_FunctionDef d = true
               /\ _process_function gd (splitlines source) d = Ok f)
  /\ (forall c m, In c (classes v) -> In m (class_methods c) ->
        exists d, subnode d tree /\ is_FunctionDef d = true
                  /\ _process_function gd (splitlines source) d = Ok m)
  /\ (forall a name args body decorator_list returns v0,
        visit gd (AsyncFunctionDef a name args body decorator_list returns) v0
        = for_each (args :: body ++ decorator_list ++ opt_nodes returns) (visit gd) v0)
  /\ ((forall d, subnode d tree -> is_FunctionDef d = false) ->
      functions v = [] /\ forall c, In c (classes v) -> class_methods c = []).
Proof.
  intro Hv.
  pose proof (visit_extends gd tree _ _ Hv) as (_ & HC & HF & _).
  cbn [init_visitor source_lines classes functions app] in HC, HF.
  assert (Hfun : forall f, In f (functions v) ->
            exists d, subnode d tree /\ is_FunctionDef d = true
                      /\ _process_function gd (splitlines source) d = Ok f).
  { intros f Hf. rewrite HF in Hf. apply In_collect in Hf.
    destruct Hf as (d & Hd & Hf). apply own_functions_inv in Hf.
    exists d. tauto. }
  assert (Hmeth : forall c m, In c (classes v) -> In m (class_methods c) ->
            exists d, subnode d tree /\ is_FunctionDef d = true
                      /\ _process_function gd (splitlines source) d = Ok m).
  { intros c m Hc Hm. rewrite HC in Hc. apply In_collect in Hc.
    destruct Hc as (d & Hd & Hc). apply own_classes_inv in Hc.
    destruct (class_record_methods _ _ _ _ _ Hc Hm) as (item & Hit & Hf & Hp).
    exists item. split; [|tauto].
    eapply subnode_trans; [|exact Hd].
    eapply subnode_child; [exact Hit | constructor]. }
  split; [|split; [exact Hmeth|split]].
  - intros f [Hf | Hf]; [now apply Hfun|].
    apply filter_methods_from_functions_spec in Hf. now apply Hfun.
  - intros. rewrite visit_unfold. cbn [pre_visit bind].
    unfold iter_child_nodes. cbn [for_child_nodes]. rewrite each_opt_nodes.
    rewrite !each_collect. cbn [app]. rewrite <- app_assoc. reflexivity.
  - intro Hno. split.
    + destruct (functions v) as [|f fs]; [reflexivity|].
      destruct (Hfun f (or_introl eq_refl)) as (d & Hd & Hf & _).
      rewrite (Hno d Hd) in Hf. discriminate.
    + intros c Hc. destruct (class_methods c) as [|m ms] eqn:Hm; [reflexivity|].
      destruct (Hmeth c m Hc) as (d & Hd & Hf & _); [rewrite Hm; now left|].
      rewrite (Hno d Hd) in Hf. discriminate.
Qed.

Lemma visit_async_tree :
  visit sample_docstring async_tree (init_visitor async_source) = Ok async_visitor.
Proof. vm_compute. reflexivity. Qed.

Lemma async_defs_invisible_witness :
  visit sample_docstring async_tree (init_visitor async_source) = Ok async_visitor
  /\ functions async_visitor = []
  /\ forall c m, In c (classes async_visitor) -> In m (class_methods c) ->
       exists d, subnode d async_tree /\ is_FunctionDef d = true
                 /\ _process_function sample_docstring (splitlines async_source) d = Ok m.
Proof.
  split; [exact visit_async_tree|]. split; [reflexivity|].
  exact (proj1 (proj2 (async_defs_invisible sample_docstring async_tree async_source
                         async_visitor visit_async_tree))).
Defined.

(** ** Variable records *)

Lemma visit_sample_tree :
  visit sample_docstring sample_tree (init_visitor sample_source)
  = Ok (mk_visitor (splitlines sample_source)
          (dict_get (fs_imports sample_file_structure) [])
          (dict_get (fs_classes sample_file_structure) [])
          (match dict_get (fs_classes sample_file_structure) [] with
           | c :: _ => class_methods c
           | [] => []
           end ++ dict_get (fs_functions sample_file_structure) [])
          [mk_variable "x" 7 "1"]).
Proof. vm_compute. reflexivity. Qed.

(** The assignment [x = 1] in the body of the function [baz] of the sample
    file is recorded, though the module body holds no assignment: the
    variable records are not those of the top-level bindings alone. *)
Lemma variables_not_only_top_level :
  ~ (forall gd tree source v,
       visit gd tree (init_visitor source) = Ok v ->
       variables v = top_level_variables (splitlines source) tree).
Proof.
  intro H. specialize (H _ _ _ _ visit_sample_tree). discriminate H.
Qed.

Lemma assign_targets_ok a targets value v v' ta id :
  assign_targets a targets value v = Ok v' ->
  In (Name ta id) targets ->
  exists line val,
    lineno a = Some line /\ _get_node_source (source_lines v) value = Ok val.
Proof.
  unfold assign_targets. revert v.
  induction targets as [|t targets IH]; intros v H Hin; [destruct Hin|].
  cbn [for_each] in H. destruct Hin as [-> | Hin].
  - destruct (lineno a) as [line|]; [|discriminate]. cbn [getattr bind] in H.
    destruct (_get_node_source (source_lines v) value) as [val|]; [|discriminate].
    exists line, val. split; reflexivity.
  - match type of H with
    | bind ?r _ = _ => destruct r as [v1|] eqn:Hstep; [|discriminate]
    end.
    cbn [bind] in H.
    assert (Hs : source_lines v1 = source_lines v).
    { destruct t; try (injection Hstep as <-; reflexivity).
      destruct (lineno a); [|discriminate]. cbn [getattr bind] in Hstep.
      destruct (_get_node_source _ _); [|discriminate].
      injection Hstep as <-. reflexivity. }
    rewrite <- Hs. now apply IH.
Qed.

(** C7, as the code has it.  After a traversal, [variables] holds the
    records of all the [Assign] nodes of the tree, wherever they are, in
    the order of the traversal.  Each [Assign] node with a target that is a
    plain name has a line and a value whose text is found, and contributes
    one record per plain-name target, with the name of the target, the line
    of the assignment and the text of the value; targets of other kinds
    contribute nothing; and every record arises in this way. *)
Theorem variables_of_assignments gd (tree : node) (source : string) (v : visitor) :
  visit gd tree (init_visitor source) = Ok v ->
  let src := splitlines source in
  variables v = collect (own_variables src) tree
  /\ (forall a targets value ta id,
        subnode (Assign a targets value) tree -> In (Name ta id) targets ->
        exists line val,
          lineno a = Some line /\ _get_node_source src value = Ok val
          /\ own_variables src (Assign a targets value) = name_targets line val targets
          /\ In (mk_variable id line val) (variables v))
  /\ (forall a targets value,
        Forall (fun t => is_Name t = false) targets ->
        own_variables src (Assign a targets value) = [])
  /\ (forall x, In x (variables v) ->
        exists a targets value ta,
          subnode (Assign a targets value) tree
          /\ In (Name ta (variable_name x)) targets
          /\ lineno a = Some (variable_line x)
          /\ _get_node_source src value = Ok (variable_value x)).
Proof.
  intros Hv src.
  pose proof (visit_extends gd tree _ _ Hv) as (_ & _ & _ & HV).
  cbn [init_visitor source_lines variables app] in HV. fold src in HV.
  split; [exact HV|]. split; [|split].
  - intros a targets value ta id Hsub Hin.
    destruct (visit_reaches gd _ _ Hsub _ _ Hv) as (v1 & v2 & Hs & Hpre).
    cbn [pre_visit] in Hpre.
    destruct (assign_targets_ok _ _ _ _ _ _ _ Hpre Hin) as (line & val & Hl & Hval).
    cbn [init_visitor source_lines] in Hs. rewrite Hs in Hval. fold src in Hval.
    exists line, val. split; [exact Hl|]. split; [exact Hval|].
    assert (Hown : own_variables src (Assign a targets value)
                   = name_targets line val targets).
    { cbn [own_variables]. unfold name_targets.
      apply flat_map_ext. intro t. destruct t; try reflexivity.
      cbn [target_variable]. rewrite Hl, Hval. reflexivity. }
    split; [exact Hown|].
    rewrite HV. apply In_collect. eexists. split; [exact Hsub|].
    rewrite Hown. unfold name_targets. apply in_flat_map.
    exists (Name ta id). split; [exact Hin | now left].
  - intros a targets value Hall. cbn [own_variables].
    induction Hall as [|t ts Ht _ IH]; [reflexivity|].
    cbn [flat_map]. rewrite IH. destruct t; try reflexivity. discriminate Ht.
  - intros x Hx. rewrite HV in Hx. apply In_collect in Hx.
    destruct Hx as (d & Hd & Hx). destruct d; try destruct Hx.
    cbn [own_variables] in Hx. apply in_flat_map in Hx.
    destruct Hx as (t & Ht & Hx). destruct t; try destruct Hx.
    cbn [target_variable] in Hx.
    destruct (lineno a) as [line|] eqn:Hl; [|destruct Hx].
    destruct (_get_node_source src d) as [val|] eqn:Hval; [|destruct Hx].
    destruct Hx as [<- | []]. cbn [variable_name variable_line variable_value].
    exists a, targets, d, a0. rewrite Hl. tauto.
Qed.

Lemma variables_of_assignments_witness :
  visit sample_docstring sample_tree (init_visitor sample_source)
  = Ok (mk_visitor (splitlines sample_source)
          (dict_get (fs_imports sample_file_structure) [])
          (dict_get (fs_classes sample_file_structure) [])
          (match dict_get (fs_classes sample_file_structure) [] with
           | c :: _ => class_methods c
           | [] => []
           end ++ dict_get (fs_functions sample_file_structure) [])
          [mk_variable "x" 7 "1"])
  /\ [mk_variable "x" 7 "1"]
     = collect (own_variables (splitlines sample_source)) sample_tree.
Proof.
  split; [exact visit_sample_tree|].
  exact (proj1 (variables_of_assignments sample_docstring sample_tree sample_source
                  _ visit_sample_tree)).
Defined.

(** ** End-line resolution *)









(** ** Chunk identifiers *)

Lemma append_assoc (a b c : string) : ((a ++ b) ++ c = a ++ (b ++ c))%string.
Proof. induction a as [|x a IH]; cbn; [reflexivity | now rewrite IH]. Qed.

Lemma has_char_append (ch : ascii) (a b : string) :
  has_char ch (a ++ b) = has_char ch a || has_char ch b.
Proof.
  induction a as [|x a IH]; cbn; [reflexivity|]. now rewrite IH, orb_assoc.
Qed.

(** Two strings cut at their last [ch] agree on both sides of it. *)
Lemma append_sep_inj (ch : ascii) (a b x y : string) :
  has_char ch x = false -> has_char ch y = false ->
  (a ++ String ch x = b ++ String ch y)%string -> a = b /\ x = y.
Proof.
  intros Hx Hy. revert b.
  induction a as [|c a IH]; intros [|d b] H; cbn in H.
  - injection H as ->. split; reflexivity.
  - injection H as -> ->. rewrite has_char_append in Hx. cbn in Hx.
    rewrite Ascii.eqb_refl, orb_true_r in Hx. discriminate.
  - injection H as -> <-. rewrite has_char_append in Hy. cbn in Hy.
    rewrite Ascii.eqb_refl, orb_true_r in Hy. discriminate.
  - injection H as -> H. destruct (IH b H) as [-> ->]. split; reflexivity.
Qed.

Lemma plain_name_inv (s : string) :
  plain_name s = true -> has_char ":" s = false /\ has_char "." s = false.
Proof.
  unfold plain_name. rewrite andb_true_iff, !negb_true_iff. tauto.
Qed.

Lemma render_eq (k : chunk_key) :
  render k
  = ((key_path k ++ String ":" (kind_of k)) ++ String ":" (qualified_name k))%string.
Proof. destruct k; cbn; rewrite append_assoc; reflexivity. Qed.

Lemma qualified_name_plain (k : chunk_key) :
  key_plain k -> has_char ":" (qualified_name k) = false.
Proof.
  destruct k; cbn; try (intro H; apply plain_name_inv in H; tauto).
  intros [Hc Hm]. apply plain_name_inv in Hc, Hm.
  rewrite has_char_append. cbn. destruct Hc as [-> _], Hm as [-> _]. reflexivity.
Qed.

Lemma kind_of_plain (k : chunk_key) : has_char ":" (kind_of k) = false.
Proof. destruct k; reflexivity. Qed.

(** Keys with plain names are told apart by their identifiers. *)
Lemma render_inj (k1 k2 : chunk_key) :
  key_plain k1 -> key_plain k2 -> render k1 = render k2 -> k1 = k2.
Proof.
  intros H1 H2 E. rewrite !render_eq in E.
  apply append_sep_inj in E; try now apply qualified_name_plain.
  destruct E as [E Eq].
  apply append_sep_inj in E; try apply kind_of_plain.
  destruct E as [Ep Ek].
  destruct k1, k2; try discriminate Ek; cbn in Ep, Eq, H1, H2; subst.
  - reflexivity.
  - destruct H1 as [_ H1], H2 as [_ H2]. apply plain_name_inv in H1, H2.
    apply append_sep_inj in Eq; try tauto. destruct Eq as [-> ->]. reflexivity.
  - reflexivity.
Qed.

Lemma chunk_ids_of_keys (fs : file_structure) :
  map chunk_id (extract_chunks fs) = map render (keys_of_file fs).
Proof.
  rewrite extract_chunks_eq. unfold keys_of_file.
  rewrite !map_app, !map_map. f_equal.
  induction (dict_get (fs_classes fs) []) as [|c cs IH]; [reflexivity|].
  cbn [flat_map]. rewrite !map_app, IH. f_equal.
  unfold chunks_of_class, keys_of_class. cbn [map]. rewrite !map_map. reflexivity.
Qed.

Lemma all_chunks_eq (files : list file_structure) :
  all_chunks files = flat_map extract_chunks files.
Proof.
  unfold all_chunks. rewrite <- (app_nil_l (flat_map _ _)).
  generalize (@nil chunk) as acc.
  induction files as [|fs files IH]; intro acc; cbn [fold_left flat_map].
  - now rewrite app_nil_r.
  - rewrite IH, app_assoc. reflexivity.
Qed.

Lemma keys_of_file_path (fs : file_structure) (k : chunk_key) :
  In k (keys_of_file fs) -> key_path k = file_path fs.
Proof.
  unfold keys_of_file. rewrite in_app_iff, in_flat_map, in_map_iff.
  intros [(c & _ & [<- | H]) | (f & <- & _)]; try reflexivity.
  apply in_map_iff in H. destruct H as (m & <- & _). reflexivity.
Qed.

Lemma keys_of_file_plain (fs : file_structure) (k : chunk_key) :
  distinct_names fs -> In k (keys_of_file fs) -> key_plain k.
Proof.
  intros (_ & _ & _ & Hc & Hm & Hf). unfold keys_of_file.
  rewrite in_app_iff, in_flat_map, in_map_iff.
  intros [(c & Hin & [<- | H]) | (f & <- & Hin)]; cbn.
  - now apply Hc.
  - apply in_map_iff in H. destruct H as (m & <- & Hmin). cbn.
    split; [now apply Hc | now apply (Hm c m)].
  - now apply Hf.
Qed.

Lemma keys_of_class_NoDup (path : string) (c : class_info) :
  NoDup (map func_name (class_methods c)) -> NoDup (keys_of_class path c).
Proof.
  intro H. unfold keys_of_class. constructor.
  - rewrite in_map_iff. intros (m & E & _). discriminate E.
  - induction (class_methods c) as [|m ms IH]; cbn [map]; [constructor|].
    inversion H as [|? ? Hm Hms]; subst. constructor; [|now apply IH].
    rewrite in_map_iff. intros (m' & E & Hin). injection E as E.
    apply Hm. rewrite <- E. now apply in_map.
Qed.

Lemma keys_of_file_NoDup (fs : file_structure) :
  distinct_names fs -> NoDup (keys_of_file fs).
Proof.
  intros (Hcs & Hms & Hfs & _). unfold keys_of_file. apply NoDup_app.
  - induction (dict_get (fs_classes fs) []) as [|c cs IH]; cbn [flat_map];
      [constructor|].
    cbn [map] in Hcs. inversion Hcs as [|? ? Hc Hcs']; subst.
    apply NoDup_app.
    + apply keys_of_class_NoDup. apply Hms. now left.
    + apply IH; [exact Hcs'|]. intros c' H. apply Hms. now right.
    + intros k Hk Hk'. apply in_flat_map in Hk'. destruct Hk' as (c' & Hc' & Hk').
      apply Hc. replace (class_name c) with (class_name c'); [now apply in_map|].
      unfold keys_of_class in Hk, Hk'.
      destruct Hk as [<- | Hk], Hk' as [E | Hk'].
      * now injection E.
      * apply in_map_iff in Hk'. destruct Hk' as (m & E & _). discriminate E.
      * apply in_map_iff in Hk. destruct Hk as (m & <- & _). discriminate E.
      * apply in_map_iff in Hk, Hk'. destruct Hk as (m & <- & _).
        destruct Hk' as (m' & E & _). now injection E.
  - induction (dict_get (fs_functions fs) []) as [|f fns IH]; cbn [map];
      [constructor|].
    cbn [map] in Hfs. inversion Hfs as [|? ? Hf Hfs']; subst.
    constructor; [|now apply IH].
    rewrite in_map_iff. intros (f' & E & Hin). injection E as E.
    apply Hf. rewrite <- E. now apply in_map.
  - intros k Hk Hk'. apply in_flat_map in Hk. destruct Hk as (c & _ & Hk).
    apply in_map_iff in Hk'. destruct Hk' as (f & <- & _).
    destruct Hk as [E | Hk]; [discriminate E|].
    apply in_map_iff in Hk. destruct Hk as (m & E & _). discriminate E.
Qed.

Lemma keys_of_files_NoDup (files : list file_structure) :
  NoDup (map file_path files) ->
  (forall fs, In fs files -> distinct_names fs) ->
  NoDup (flat_map keys_of_file files).
Proof.
  induction files as [|fs files IH]; intros Hp Hd; cbn [flat_map]; [constructor|].
  cbn [map] in Hp. inversion Hp as [|? ? Hfs Hp']; subst.
  apply NoDup_app.
  - apply keys_of_file_NoDup. apply Hd. now left.
  - apply IH; [exact Hp'|]. intros fs' H. apply Hd. now right.
  - intros k Hk Hk'. apply in_flat_map in Hk'. destruct Hk' as (fs' & Hin & Hk').
    apply Hfs. apply keys_of_file_path in Hk, Hk'. rewrite <- Hk, Hk'.
    now apply in_map.
Qed.

(** Both definitions of [f] are kept by the analysis, and their two chunks
    have the same identifier [a.py:function:f]. *)
Lemma chunk_ids_not_unique :
  analyze sample_docstring (fun _ => Ok redefined_source) (fun _ => Ok redefined_tree)
    "a.py" = Ok redefined_file_structure
  /\ map chunk_id (extract_chunks redefined_file_structure)
     = ["a.py:function:f"; "a.py:function:f"]
  /\ ~ NoDup (map chunk_id (all_chunks [redefined_file_structure])).
Proof.
  split; [vm_compute; reflexivity|]. split; [reflexivity|].
  intro H. vm_compute in H. inversion H as [|? ? Hin _]; subst.
  apply Hin. now left.
Qed.

(** C3, as the code has it.  The identifiers of the chunks of a file
    structure are a function of its path and of the names of its classes,
    methods and functions: [path:class:Name], [path:method:Class.name] and
    [path:function:name], in the order of the chunks.  Over the files of a
    repository run they are pairwise distinct when the paths of the files
    are distinct and, in each file, the names are plain and no name is
    used twice among the classes, among the methods of one class, or among
    the functions. *)
Theorem chunk_ids_unique (files : list file_structure) :
  NoDup (map file_path files) ->
  (forall fs, In fs files -> distinct_names fs) ->
  (forall fs,
     map chunk_id (extract_chunks fs)
     = flat_map
         (fun c =>
            (file_path fs ++ ":class:" ++ class_name c)%string
            :: map (fun m => (file_path fs ++ ":method:" ++ class_name c ++ "."
                              ++ func_name m)%string) (class_methods c))
         (dict_get (fs_classes fs) [])
       ++ map (fun f => (file_path fs ++ ":function:" ++ func_name f)%string)
            (dict_get (fs_functions fs) []))
  /\ NoDup (map chunk_id (all_chunks files)).
Proof.
  intros Hp Hd. split.
  - intro fs. rewrite extract_chunks_eq, map_app, map_map. f_equal.
    induction (dict_get (fs_classes fs) []) as [|c cs IH]; [reflexivity|].
    cbn [flat_map]. rewrite map_app, IH. f_equal.
    unfold chunks_of_class. cbn [map]. rewrite map_map. reflexivity.
  - rewrite all_chunks_eq.
    replace (map chunk_id (flat_map extract_chunks files))
      with (map render (flat_map keys_of_file files)).
    + apply NoDup_map_NoDup_ForallPairs; [|now apply keys_of_files_NoDup].
      intros k1 k2 H1 H2. apply in_flat_map in H1, H2.
      destruct H1 as (fs1 & Hf1 & H1), H2 as (fs2 & Hf2 & H2).
      apply render_inj.
      * exact (keys_of_file_plain fs1 k1 (Hd fs1 Hf1) H1).
      * exact (keys_of_file_plain fs2 k2 (Hd fs2 Hf2) H2).
    + clear Hp Hd. induction files as [|fs files IH]; [reflexivity|].
      cbn [flat_map]. rewrite !map_app, IH, chunk_ids_of_keys. reflexivity.
Qed.

Lemma chunk_ids_unique_witness :
  NoDup (map file_path [sample_file_structure])
  /\ (forall fs, In fs [sample_file_structure] -> distinct_names fs)
  /\ NoDup (map chunk_id (all_chunks [sample_file_structure])).
Proof.
  assert (Hp : NoDup (map file_path [sample_file_structure])).
  { cbn. constructor; [intros [] | constructor]. }
  assert (Hd : forall fs, In fs [sample_file_structure] -> distinct_names fs).
  { intros fs [<- | []]. unfold distinct_names. cbn.
    repeat split.
    - constructor; [intros [] | constructor].
    - intros c [<- | []]. cbn. constructor; [intros [] | constructor].
    - constructor; [intros [] | constructor].
    - intros c [<- | []]. reflexivity.
    - intros c m [<- | []] [<- | []]. reflexivity.
    - intros f [<- | []]. reflexivity. }
  split; [exact Hp|]. split; [exact Hd|].
  exact (proj2 (chunk_ids_unique [sample_file_structure] Hp Hd)).
Defined.

(** ** Default values of parameters *)

Lemma four_params_aligned :
  _extract_parameters (splitlines four_params_source) four_params_def
  = Ok [mk_param "a" None None; mk_param "b" None None;
        mk_param "c" None (Some "1"); mk_param "d" None (Some "2")].
Proof. vm_compute. reflexivity. Qed.

(** C5, the failing input.  For [def f(a=1, /): pass] the alignment of the
    one default indexes the empty parameter list at [-1]: the extraction of
    the parameters raises [IndexError], and the analysis of the file
    returns the error dictionary in place of a file structure. *)
Theorem posonly_default_raises :
  _extract_parameters (splitlines posonly_source) posonly_def = Raise IndexError
  /\ parse_python_file sample_docstring (fun _ => Ok posonly_source)
       (fun _ => Ok (Module no_attrs [posonly_def])) two_files_str "a.py"
     = mk_file_structure "a.py" (Some "list index out of range") None None None None.
Proof. split; vm_compute; reflexivity. Qed.

(** ** Source text of a span *)

(** C2, the failing input.  [str.splitlines] cuts the comment line at its
    form feed, which is no line end for the parser, so every later node is
    looked up one line too early: the function [f], whose span is line 2
    column 0 to line 3 column 12, gets the text of the end of the comment
    and of its own first line in place of the text of its span. *)
Theorem span_fidelity_fails :
  splitlines form_feed_source = ["# a"; "b"; "def f():"; "    return 1"]
  /\ span_text form_feed_source 2 0 3 12
     = ("def f():" ++ String "010" "    return 1")%string
  /\ _get_node_source (splitlines form_feed_source) form_feed_def
     = Ok ("b" ++ String "010" "def f():")%string
  /\ analyze sample_docstring (fun _ => Ok form_feed_source)
       (fun _ => Ok (Module no_attrs [form_feed_def])) "a.py"
     = Ok (mk_file_structure "a.py" None (Some []) (Some [])
             (Some [mk_func "f" (2, 3) ("b" ++ String "010" "def f():") None [] None])
             (Some [])).
Proof. repeat split; vm_compute; reflexivity. Qed.

(** ** Defaults that do not outnumber the parameters *)

Lemma param_loop (src : list string) (args : list node) (ps : list param_info) :
  Forall2 (arg_param src) args ps ->
  forall acc, for_each args (param_of_arg src) acc = Ok (acc ++ ps).
Proof.
  induction 1 as [|arg p args ps (a & ann & -> & Hd & Ht) _ IH]; intro acc;
    cbn [for_each].
  - now rewrite app_nil_r.
  - cbn [param_of_arg]. destruct p as [name type default]. cbn in Hd, Ht. subst default.
    assert (E : match ann with
                | Some ann0 => t <- _get_node_source src ann0 ;; Ok (Some t)
                | None => Ok None
                end = Ok type).
    { destruct ann as [ann|]; [|now subst].
      destruct Ht as (t & -> & ->). reflexivity. }
    cbn [param_name]. rewrite E. cbn [bind]. rewrite IH, <- app_assoc. reflexivity.
Qed.

Lemma arg_param_no_default (src : list string) (args : list node)
  (ps : list param_info) :
  Forall2 (arg_param src) args ps -> Forall (fun p => param_default p = None) ps.
Proof.
  induction 1 as [|arg p args ps (? & ? & _ & Hp & _) _ IH]; constructor; assumption.
Qed.

Lemma py_update_middle {A : Type} (done rest : list A) (x : A) (g : A -> A) :
  py_update (done ++ x :: rest) (Z.of_nat (List.length done)) g
  = Ok (done ++ g x :: rest).
Proof.
  unfold py_update, py_index. cbv zeta.
  assert (Hlen : Z.of_nat (List.length (done ++ x :: rest))
                 = Z.of_nat (List.length done) + 1 + Z.of_nat (List.length rest)).
  { rewrite length_app. cbn [List.length]. lia. }
  rewrite Hlen. set (i := Z.of_nat (List.length done)).
  set (r := Z.of_nat (List.length rest)).
  assert (E1 : (i <? 0) = false) by (subst i; lia).
  assert (E2 : (i + 1 + r <=? i) = false) by (subst i r; lia).
  rewrite !E1, E2. cbn [orb]. subst i. rewrite Nat2Z.id.
  rewrite nth_error_app2, Nat.sub_diag by lia. cbn [nth_error bind].
  rewrite firstn_app, firstn_all, Nat.sub_diag. cbn [firstn].
  rewrite app_nil_r. f_equal. f_equal.
  change (S (List.length done)) with (1 + List.length done)%nat.
  rewrite <- skipn_skipn, skipn_app, skipn_all, Nat.sub_diag. reflexivity.
Qed.

Lemma with_defaults_length (texts : list string) (ps : list param_info) :
  List.length (with_defaults texts ps) = List.length ps.
Proof.
  revert ps. induction texts as [|t texts IH]; intros [|p ps]; cbn; try reflexivity.
  now rewrite IH.
Qed.

Lemma with_defaults_set (texts : list string) (ps : list param_info) :
  List.length texts = List.length ps ->
  Forall2 (fun p t => param_default p = Some t) (with_defaults texts ps) texts.
Proof.
  revert ps. induction texts as [|t texts IH]; intros [|p ps] H; cbn in *;
    try discriminate; constructor; [reflexivity|].
  apply IH. now injection H.
Qed.

Lemma default_loop (src : list string) (offset : Z) (ds : list node)
  (texts : list string) :
  Forall2 (fun d t => _get_node_source src d = Ok t) ds texts ->
  forall (i : Z) (done rest : list param_info),
    offset + i = Z.of_nat (List.length done) ->
    (List.length ds <= List.length rest)%nat ->
    for_each (enumerate_from i ds) (align_default src offset) (done ++ rest)
    = Ok (done ++ with_defaults texts rest).
Proof.
  induction 1 as [|d t ds texts Hd _ IH]; intros i done rest Hi Hlen.
  - destruct rest; reflexivity.
  - destruct rest as [|p rest]; [cbn in Hlen; lia|].
    cbn [enumerate_from for_each align_default]. rewrite Hd. cbn [bind].
    rewrite Hi, py_update_middle. cbn [bind with_defaults].
    change (done ++ set_default t p :: rest)
      with (done ++ [set_default t p] ++ rest).
    rewrite app_assoc, IH.
    + rewrite <- app_assoc. reflexivity.
    + rewrite length_app. cbn [List.length]. lia.
    + cbn [List.length] in Hlen. lia.
Qed.

(** When a function has no more defaults than parameters in [args], the
    defaults are set on the last parameters, one each, in order, and the
    parameters before them are left without default. *)
Lemma _extract_parameters_aligned (src : list string) a name a' posonlyargs args vararg
  kwonlyargs kw_defaults kwarg defaults body decorator_list returns
  (ps : list param_info) (texts : list string) :
  Forall2 (arg_param src) args ps ->
  Forall2 (fun d t => _get_node_source src d = Ok t) defaults texts ->
  (List.length defaults <= List.length args)%nat ->
  let k := List.length defaults in
  let n := List.length args in
  _extract_parameters src
    (FunctionDef a name
       (Arguments a' posonlyargs args vararg kwonlyargs kw_defaults kwarg defaults)
       body decorator_list returns)
  = Ok (firstn (n - k) ps ++ with_defaults texts (skipn (n - k) ps))
  /\ List.length (with_defaults texts (skipn (n - k) ps)) = k
  /\ Forall (fun p => param_default p = None) (firstn (n - k) ps)
  /\ Forall2 (fun p t => param_default p = Some t)
       (with_defaults texts (skipn (n - k) ps)) texts.
Proof.
  intros Hargs Hds Hle k n.
  pose proof (Forall2_length Hargs) as Hn. pose proof (Forall2_length Hds) as Hk.
  fold n in Hn. fold k in Hk, Hle.
  assert (Hskip : List.length (skipn (n - k) ps) = k) by (rewrite length_skipn; lia).
  split; [|split; [|split]].
  - cbn [_extract_parameters]. rewrite (param_loop src args ps Hargs []).
    cbn [app bind].
    assert (Hgen : for_each (enumerate_from 0 defaults)
                     (align_default src (Z.of_nat n - Z.of_nat k)) ps
                   = Ok (firstn (n - k) ps ++ with_defaults texts (skipn (n - k) ps))).
    { rewrite <- (firstn_skipn (n - k) ps) at 1.
      apply default_loop; [exact Hds | | lia].
      rewrite length_firstn. lia. }
    subst k n. destruct defaults; exact Hgen.
  - rewrite with_defaults_length. exact Hskip.
  - apply Forall_forall. intros p Hp.
    apply (proj1 (Forall_forall _ _) (arg_param_no_default src args ps Hargs)).
    rewrite <- (firstn_skipn (n - k) ps). apply in_or_app. now left.
  - apply with_defaults_set. rewrite Hskip. symmetry. exact Hk.
Qed.

(** ** Span fidelity on sources whose lines end with line feeds only *)

Lemma flat_app (xs ys : list (list ascii)) : flat (xs ++ ys) = flat xs ++ flat ys.
Proof. apply flat_map_app. Qed.

Lemma line_start_line (k : nat) (line rest : list ascii) :
  ~ In LF line ->
  line_start (S k) (line ++ LF :: rest)
  = (List.length line + 1 + line_start k rest)%nat.
Proof.
  induction line as [|ch line IH]; intro H; cbn [app line_start List.length].
  - reflexivity.
  - destruct (Ascii.eqb ch "010") eqn:E.
    + apply Ascii.eqb_eq in E. subst ch. exfalso. apply H. now left.
    + rewrite IH; [lia|]. intro Hin. apply H. now right.
Qed.

Lemma line_start_flat (pre : list (list ascii)) (rest : list ascii) :
  Forall (fun line => ~ In LF line) pre ->
  line_start (List.length pre) (flat pre ++ rest) = List.length (flat pre).
Proof.
  induction 1 as [|line pre Hline _ IH]; [destruct rest; reflexivity|].
  cbn [flat flat_map List.length]. rewrite <- !app_assoc. cbn [app].
  rewrite line_start_line by exact Hline.
  fold (flat pre). rewrite IH, !length_app. cbn [List.length]. lia.
Qed.

Lemma firstn_skipn_app {A : Type} (xs ys zs : list A) :
  firstn (List.length ys) (skipn (List.length xs) (xs ++ ys ++ zs)) = ys.
Proof.
  rewrite skipn_app, skipn_all, Nat.sub_diag. cbn [skipn app].
  rewrite firstn_app, firstn_all, Nat.sub_diag. cbn [firstn]. apply app_nil_r.
Qed.

Lemma skipn_add {A : Type} (a b : nat) (l : list A) :
  skipn (a + b) l = skipn b (skipn a l).
Proof. rewrite skipn_skipn. f_equal. lia. Qed.

(** The text of a span within one line. *)
Lemma span_one_line (pre : list (list ascii)) (line rest : list ascii) (c ec : nat) :
  Forall (fun line => ~ In LF line) pre ->
  (c <= ec)%nat -> (ec <= List.length line)%nat ->
  let chars := flat pre ++ line ++ rest in
  let start := (line_start (List.length pre) chars + c)%nat in
  let stop := (line_start (List.length pre) chars + ec)%nat in
  firstn (stop - start) (skipn start chars) = firstn (ec - c) (skipn c line).
Proof.
  intros Hpre Hc Hec. cbv zeta. rewrite line_start_flat by exact Hpre.
  replace (List.length (flat pre) + ec - (List.length (flat pre) + c))%nat
    with (ec - c)%nat by lia.
  rewrite skipn_add, skipn_app, skipn_all, Nat.sub_diag. cbn [skipn app].
  rewrite skipn_app, firstn_app.
  replace (c - List.length line)%nat with 0%nat by lia.
  replace (ec - c - List.length (skipn c line))%nat with 0%nat
    by (rewrite length_skipn; lia).
  cbn [firstn skipn]. apply app_nil_r.
Qed.

(** The text of a span over several lines. *)
Lemma span_lines (pre mid : list (list ascii)) (first last rest : list ascii)
  (c ec : nat) :
  Forall (fun line => ~ In LF line) pre -> ~ In LF first ->
  Forall (fun line => ~ In LF line) mid ->
  (c <= List.length first)%nat -> (ec <= List.length last)%nat ->
  let chars := flat pre ++ first ++ LF :: flat mid ++ last ++ rest in
  let start := (line_start (List.length pre) chars + c)%nat in
  let stop := (line_start (List.length pre + 1 + List.length mid) chars + ec)%nat in
  firstn (stop - start) (skipn start chars)
  = skipn c first ++ LF :: flat mid ++ firstn ec last.
Proof.
  intros Hpre Hfirst Hmid Hc Hec. cbv zeta.
  rewrite line_start_flat by exact Hpre.
  assert (E : flat pre ++ first ++ LF :: flat mid ++ last ++ rest
              = flat (pre ++ [first] ++ mid) ++ last ++ rest).
  { rewrite !flat_app. cbn [flat flat_map]. rewrite <- !app_assoc. reflexivity. }
  assert (Hall : Forall (fun line => ~ In LF line) (pre ++ [first] ++ mid)).
  { apply Forall_app. split; [exact Hpre|]. constructor; assumption. }
  assert (Hlen : (List.length pre + 1 + List.length mid)%nat
                 = List.length (pre ++ [first] ++ mid)).
  { rewrite !length_app. cbn [List.length]. lia. }
  assert (Hstop : line_start (List.length pre + 1 + List.length mid)
                    (flat pre ++ first ++ LF :: flat mid ++ last ++ rest)
                  = List.length (flat (pre ++ [first] ++ mid))).
  { rewrite Hlen, E. apply line_start_flat. exact Hall. }
  rewrite Hstop.
  rewrite !flat_app. cbn [flat flat_map]. rewrite !length_app. cbn [List.length app].
  rewrite skipn_add, skipn_app, skipn_all, Nat.sub_diag. cbn [skipn app].
  rewrite skipn_app. replace (c - List.length first)%nat with 0%nat by lia.
  cbn [skipn].
  set (want := skipn c first ++ LF :: flat mid ++ firstn ec last).
  replace (skipn c first ++ LF :: flat mid ++ last ++ rest)
    with (want ++ skipn ec last ++ rest).
  - replace (List.length (flat pre)
             + (List.length first + 1 + 0 + List.length (flat mid)) + ec
             - (List.length (flat pre) + c))%nat
      with (List.length want).
    + rewrite firstn_app, firstn_all, Nat.sub_diag. cbn [firstn]. apply app_nil_r.
    + subst want. rewrite length_app, length_skipn. cbn [List.length].
      rewrite length_app, length_firstn. lia.
  - subst want. rewrite <- !app_assoc. cbn [app]. rewrite <- !app_assoc.
    rewrite (app_assoc (firstn ec last)), firstn_skipn. reflexivity.
Qed.

Lemma chars_append (a b : string) : chars (a ++ b) = chars a ++ chars b.
Proof.
  unfold chars. induction a as [|ch a IH]; cbn; [reflexivity | now f_equal].
Qed.

Lemma chars_length (s : string) : List.length (chars s) = String.length s.
Proof.
  unfold chars. induction s as [|ch s IH]; cbn; [reflexivity | now f_equal].
Qed.

Lemma eqb_empty (s : string) : String.eqb s "" = true <-> s = "".
Proof. apply String.eqb_eq. Qed.

(** On a text whose line boundaries are line feeds, [splitlines] yields
    lines without line feed which, each followed by a line feed, give back
    the text, up to the line feed that a last line may lack. *)
Lemma splitlines_from_flat (s cur : string) :
  lf_only s = true -> ~ In LF (chars cur) ->
  Forall (fun line => ~ In LF line) (map chars (splitlines_from cur s))
  /\ exists tail,
       (tail = [] \/ tail = [LF])
       /\ chars cur ++ chars s ++ tail = flat (map chars (splitlines_from cur s)).
Proof.
  revert cur. induction s as [|ch s IH]; intros cur Hs Hcur.
  - cbn [splitlines_from]. destruct (String.eqb cur "") eqn:E.
    + apply eqb_empty in E. subst cur. split; [constructor|].
      exists []. split; [now left | reflexivity].
    + split; [constructor; [exact Hcur | constructor]|].
      exists [LF]. split; [now right|]. cbn. now rewrite app_nil_r.
  - unfold lf_only in Hs. cbn [list_ascii_of_string forallb] in Hs.
    apply andb_true_iff in Hs. destruct Hs as [Hch Hs]. fold (lf_only s) in Hs.
    cbn [splitlines_from].
    destruct (Ascii.eqb ch "013") eqn:Ecr.
    { apply Ascii.eqb_eq in Ecr. subst ch. discriminate Hch. }
    destruct (is_line_boundary ch) eqn:Eb.
    + cbn [negb orb] in Hch. apply Ascii.eqb_eq in Hch. subst ch.
      destruct (IH "" Hs (fun H => H)) as (Hall & tail & Htail & E).
      split; [constructor; assumption|].
      exists tail. split; [exact Htail|].
      cbn [map flat flat_map]. fold (flat (map chars (splitlines_from "" s))).
      rewrite <- E. cbn [chars list_ascii_of_string app].
      rewrite <- !app_assoc. reflexivity.
    + assert (Hne : ch <> LF) by (intros ->; discriminate Eb).
      assert (Hcur' : ~ In LF (chars (cur ++ String ch ""))).
      { rewrite chars_append, in_app_iff. cbn. intros [H | [H | []]]; auto. }
      destruct (IH _ Hs Hcur') as (Hall & tail & Htail & E).
      split; [exact Hall|]. exists tail. split; [exact Htail|].
      rewrite <- E, chars_append. cbn [chars list_ascii_of_string].
      rewrite <- !app_assoc. reflexivity.
Qed.

Lemma flat_last (post : list (list ascii)) :
  post <> [] -> exists body, flat post = body ++ [LF].
Proof.
  intro H. destruct (exists_last H) as (init & line & ->).
  exists (flat init ++ line). rewrite flat_app. cbn [flat flat_map].
  rewrite app_nil_r, <- app_assoc. reflexivity.
Qed.

(** A text stops after one of its lines, or goes on beyond it. *)
Lemma text_up_to_line (text tail : list ascii) (pre post : list (list ascii))
  (line : list ascii) :
  tail = [] \/ tail = [LF] ->
  text ++ tail = flat (pre ++ line :: post) ->
  exists rest, text = flat pre ++ line ++ rest.
Proof.
  intros Htail E. rewrite flat_app in E. cbn [flat flat_map] in E.
  fold (flat post) in E. rewrite <- app_assoc in E. cbn [app] in E.
  destruct Htail as [-> | ->].
  - rewrite app_nil_r in E. exists (LF :: flat post). exact E.
  - destruct post as [|p post].
    + cbn in E. rewrite !app_assoc in E. apply app_inj_tail in E.
      destruct E as [E _]. exists []. now rewrite app_nil_r.
    + destruct (flat_last (p :: post)) as [body Hb]; [discriminate|].
      rewrite Hb in E.
      replace (flat pre ++ line ++ LF :: body ++ [LF])
        with ((flat pre ++ line ++ LF :: body) ++ [LF]) in E
        by (rewrite <- !app_assoc; reflexivity).
      apply app_inj_tail in E. destruct E as [E _].
      exists (LF :: body). exact E.
Qed.

Lemma py_index_middle {A : Type} (pre rest : list A) (x : A) (i : Z) :
  i = Z.of_nat (List.length pre) -> py_index (pre ++ x :: rest) i = Ok x.
Proof.
  intros ->. unfold py_index. cbv zeta.
  assert (Hlen : Z.of_nat (List.length (pre ++ x :: rest))
                 = Z.of_nat (List.length pre) + 1 + Z.of_nat (List.length rest)).
  { rewrite length_app. cbn [List.length]. lia. }
  rewrite Hlen. set (i := Z.of_nat (List.length pre)).
  set (r := Z.of_nat (List.length rest)).
  assert (E1 : (i <? 0) = false) by (subst i; lia).
  assert (E2 : (i + 1 + r <=? i) = false) by (subst i r; lia).
  rewrite !E1, E2. cbn [orb]. subst i. rewrite Nat2Z.id.
  rewrite nth_error_app2, Nat.sub_diag by lia. reflexivity.
Qed.

Lemma adjust_inside (n i : Z) : 0 <= i <= n -> adjust n i = i.
Proof. intro H. unfold adjust. destruct (i <? 0) eqn:E; lia. Qed.

Lemma py_slice_middle {A : Type} (xs ys zs : list A) (lo hi : Z) :
  lo = Z.of_nat (List.length xs) ->
  hi = Z.of_nat (List.length xs + List.length ys) ->
  py_slice (xs ++ ys ++ zs) (Some lo) (Some hi) = ys.
Proof.
  intros -> ->. unfold py_slice. cbv zeta.
  rewrite !adjust_inside by (rewrite !length_app; lia).
  replace (Z.to_nat (Z.of_nat (List.length xs + List.length ys)
                     - Z.of_nat (List.length xs)))
    with (List.length ys) by lia.
  rewrite Nat2Z.id. apply firstn_skipn_app.
Qed.

Lemma str_slice_both (line : string) (c ec : nat) :
  (c <= String.length line)%nat -> (ec <= String.length line)%nat ->
  str_slice line (Some (Z.of_nat c)) (Some (Z.of_nat ec))
  = string_of_list_ascii (firstn (ec - c) (skipn c (chars line))).
Proof.
  intros Hc Hec. unfold str_slice, py_slice. cbv zeta. fold (chars line).
  rewrite !adjust_inside by (rewrite chars_length; lia).
  replace (Z.to_nat (Z.of_nat ec - Z.of_nat c)) with (ec - c)%nat by lia.
  now rewrite Nat2Z.id.
Qed.

Lemma str_slice_from (line : string) (c : nat) :
  (c <= String.length line)%nat ->
  str_slice line (Some (Z.of_nat c)) None = string_of_list_ascii (skipn c (chars line)).
Proof.
  intro Hc. unfold str_slice, py_slice. cbv zeta. fold (chars line).
  rewrite adjust_inside by (rewrite chars_length; lia).
  rewrite Nat2Z.id, firstn_all2; [reflexivity|]. rewrite length_skipn. lia.
Qed.

Lemma str_slice_to (line : string) (ec : nat) :
  (ec <= String.length line)%nat ->
  str_slice line None (Some (Z.of_nat ec)) = string_of_list_ascii (firstn ec (chars line)).
Proof.
  intro Hec. unfold str_slice, py_slice. cbv zeta. fold (chars line).
  rewrite adjust_inside by (rewrite chars_length; lia).
  rewrite Z.sub_0_r, Nat2Z.id. reflexivity.
Qed.

Lemma chars_string (l : list ascii) : chars (string_of_list_ascii l) = l.
Proof. apply list_ascii_of_string_of_list_ascii. Qed.

Lemma string_chars (s : string) : string_of_list_ascii (chars s) = s.
Proof. apply string_of_list_ascii_of_string. Qed.

Lemma join_lines_cons (x : string) (rest : list string) :
  rest <> [] ->
  join_lines (x :: rest) = (x ++ String LF (join_lines rest))%string.
Proof. destruct rest; [congruence | reflexivity]. Qed.

Lemma join_lines_chars (x y : string) (mid : list string) :
  chars (join_lines (x :: mid ++ [y]))
  = chars x ++ LF :: flat (map chars mid) ++ chars y.
Proof.
  revert x. induction mid as [|m mid IH]; intro x.
  - cbn [app join_lines]. rewrite chars_append. reflexivity.
  - rewrite join_lines_cons by discriminate.
    rewrite chars_append. cbn [chars list_ascii_of_string].
    fold (chars (join_lines ((m :: mid) ++ [y]))).
    cbn [app]. rewrite IH. cbn [map flat flat_map].
    rewrite <- !app_assoc. reflexivity.
Qed.

Lemma nth_split_at {A : Type} (l : list A) (n : nat) (d : A) :
  (n < List.length l)%nat ->
  exists pre post, l = pre ++ nth n l d :: post /\ List.length pre = n.
Proof. apply nth_split. Qed.

(** On a source whose line boundaries are line feeds only, the text that
    [_get_node_source] finds for a node with its four position attributes
    is the substring of the source from character [c] of line [l] up to
    character [ec] of line [el], when lines [l] to [el] are lines of the
    source and [c] and [ec] lie within line [l] and line [el]. *)
Lemma span_by_characters (source : string) (n : node) (l c el ec : nat) :
  lf_only source = true ->
  attrs_of n = at_ (Z.of_nat l) (Z.of_nat c) (Z.of_nat el) (Z.of_nat ec) ->
  (1 <= l)%nat -> (l <= el)%nat ->
  (el <= List.length (splitlines source))%nat ->
  (c <= String.length (nth (l - 1) (splitlines source) ""))%nat ->
  (ec <= String.length (nth (el - 1) (splitlines source) ""))%nat ->
  (l = el -> (c <= ec)%nat) ->
  _get_node_source (splitlines source) n = Ok (span_text source l c el ec).
Proof.
  intros Hlf Hattrs Hl Hle Hel Hc Hec Hsame.
  destruct (splitlines_from_flat source "" Hlf (fun H => H))
    as (Hall & tail & Htail & Htext).
  fold (splitlines source) in Hall, Htext. cbn [chars list_ascii_of_string app] in Htext.
  unfold _get_node_source. rewrite Hattrs. cbn [lineno end_lineno col_offset end_col_offset at_].
  unfold span_text. cbv zeta. fold (chars source).
  destruct (nth_split_at (splitlines source) (el - 1) "" ltac:(lia))
    as (pre2 & post & Hlines & Hpre2).
  set (b := nth (el - 1) (splitlines source) "") in *.
  destruct (Nat.eq_dec l el) as [<- | Hne].
  - rewrite Z.eqb_refl.
    assert (Ib : py_index (splitlines source) (Z.of_nat l - 1) = Ok b)
      by (rewrite Hlines; apply py_index_middle; lia).
    rewrite Ib. cbn [bind].
    rewrite str_slice_both by assumption. do 2 f_equal.
    rewrite Hlines, map_app in Htext, Hall. cbn [map] in Htext, Hall.
    destruct (text_up_to_line _ _ _ _ _ Htail Htext) as [rest Hsrc].
    apply Forall_app in Hall. destruct Hall as [Hpre _].
    rewrite Hsrc, <- Hpre2, <- (length_map chars pre2). symmetry.
    apply span_one_line; [exact Hpre | now apply Hsame | now rewrite chars_length].
  - replace (Z.of_nat l - 1 =? Z.of_nat el - 1) with false by lia.
    destruct (nth_split_at pre2 (l - 1) "" ltac:(lia)) as (pre & mid & Hpre2' & Hpre).
    assert (Ha : nth (l - 1) pre2 "" = nth (l - 1) (splitlines source) "").
    { rewrite Hlines, app_nth1 by lia. reflexivity. }
    rewrite Ha in Hpre2'. set (a := nth (l - 1) (splitlines source) "") in *.
    assert (Hsplit : splitlines source = pre ++ a :: mid ++ b :: post).
    { rewrite Hlines at 1. rewrite Hpre2' at 1. rewrite <- app_assoc. reflexivity. }
    assert (Hmid : (List.length pre + 1 + List.length mid = el - 1)%nat).
    { rewrite <- Hpre2, Hpre2', length_app. cbn [List.length]. lia. }
    assert (Ia : py_index (splitlines source) (Z.of_nat l - 1) = Ok a)
      by (rewrite Hsplit; apply py_index_middle; lia).
    assert (Ib : py_index (splitlines source) (Z.of_nat el - 1) = Ok b)
      by (rewrite Hlines; apply py_index_middle; lia).
    assert (Im : py_slice (splitlines source) (Some (Z.of_nat l - 1 + 1))
                   (Some (Z.of_nat el - 1)) = mid).
    { rewrite Hsplit.
      change (pre ++ a :: mid ++ b :: post) with (pre ++ [a] ++ mid ++ b :: post).
      rewrite app_assoc. apply py_slice_middle; rewrite ?length_app; cbn [List.length]; lia. }
    rewrite Ia. cbn [bind]. rewrite Ib. cbn [bind]. rewrite Im. clear Ia Ib Im.
    rewrite str_slice_from, str_slice_to by assumption.
    cbn [app]. rewrite <- (string_chars (join_lines _)). do 2 f_equal.
    rewrite join_lines_chars, !chars_string.
    rewrite Hsplit, map_app in Htext, Hall. cbn [map] in Htext, Hall.
    rewrite map_app in Htext, Hall. cbn [map] in Htext, Hall.
    apply Forall_app in Hall. destruct Hall as [HP Hall].
    apply Forall_cons_iff in Hall. destruct Hall as [Hna Hall'].
    apply Forall_app in Hall'. destruct Hall' as [HM _].
    replace (map chars pre ++ chars a :: map chars mid ++ chars b :: map chars post)
      with ((map chars pre ++ chars a :: map chars mid) ++ chars b :: map chars post)
      in Htext by (rewrite <- app_assoc; reflexivity).
    destruct (text_up_to_line _ _ _ _ _ Htail Htext) as [rest Hsrc].
    rewrite flat_app in Hsrc. cbn [flat flat_map] in Hsrc.
    fold (flat (map chars mid)) in Hsrc.
    rewrite <- !app_assoc in Hsrc. cbn [app] in Hsrc.
    rewrite Hsrc. symmetry.
    replace (l - 1)%nat with (List.length (map chars pre)) by (rewrite length_map; lia).
    replace (el - 1)%nat
      with (List.length (map chars pre) + 1 + List.length (map chars mid))%nat
      by (rewrite !length_map; lia).
    apply span_lines; try assumption; now rewrite chars_length.
Qed.

(** The form feed of [form_feed_source] is a line boundary that is no line
    feed. *)
Example form_feed_not_lf_only : lf_only form_feed_source = false.
Proof. vm_compute. reflexivity. Qed.

(** * Further properties of the services *)

(** ** The filtering pass, again *)

Lemma filter_filter {A : Type} (p : A -> bool) (l : list A) :
  filter p (filter p l) = filter p l.
Proof.
  induction l as [|x l IH]; [reflexivity|]. cbn [filter].
  destruct (p x) eqn:E; [|exact IH]. cbn [filter]. now rewrite E, IH.
Qed.

Lemma filter_all {A : Type} (p : A -> bool) (l : list A) :
  (forall x, In x l -> p x = true) -> filter p l = l.
Proof.
  induction l as [|x l IH]; intro H; [reflexivity|]. cbn [filter].
  rewrite (H x (or_introl eq_refl)), IH; [reflexivity|].
  intros y Hy. apply H. now right.
Qed.

(** The filtering pass changes nothing but [functions]; running it a
    second time changes nothing at all; and it changes nothing at all
    when no class has a method. *)
Theorem filter_methods_idempotent (v : visitor) :
  let v' := filter_methods_from_functions v in
  filter_methods_from_functions v' = v'
  /\ source_lines v' = source_lines v
  /\ imports v' = imports v
  /\ classes v' = classes v
  /\ variables v' = variables v
  /\ ((forall c, In c (classes v) -> class_methods c = []) -> v' = v).
Proof.
  cbv zeta. split; [|repeat split].
  - unfold filter_methods_from_functions.
    cbn [source_lines imports classes functions variables].
    now rewrite filter_filter.
  - intro Hno. unfold filter_methods_from_functions. rewrite filter_all.
    + destruct v; reflexivity.
    + intros f _. apply negb_true_iff. apply set_mem_complete2. intro Hs.
      apply method_signatures_spec in Hs. destruct Hs as (c & m & Hc & Hm & _).
      rewrite (Hno c Hc) in Hm. destruct Hm.
Qed.

(** ** When the source text of a node cannot be read *)

Lemma py_index_cases {A : Type} (l : list A) (i : Z) :
  (valid_index (Z.of_nat (List.length l)) i /\ exists x, py_index l i = Ok x)
  \/ (~ valid_index (Z.of_nat (List.length l)) i /\ py_index l i = Raise IndexError).
Proof.
  unfold valid_index, py_index. cbv zeta.
  set (n := Z.of_nat (List.length l)).
  destruct (i <? 0) eqn:Hneg.
  - destruct ((i + n <? 0) || (n <=? i + n)) eqn:Hout.
    + right. split; [|reflexivity]. apply orb_true_iff in Hout. lia.
    + apply orb_false_iff in Hout. left. split; [lia|].
      destruct (nth_error l (Z.to_nat (i + n))) as [x|] eqn:Hx; [now exists x|].
      apply nth_error_None in Hx. lia.
  - destruct ((i <? 0) || (n <=? i)) eqn:Hout.
    + right. split; [|reflexivity]. apply orb_true_iff in Hout. lia.
    + apply orb_false_iff in Hout. left. split; [lia|].
      destruct (nth_error l (Z.to_nat i)) as [x|] eqn:Hx; [now exists x|].
      apply nth_error_None in Hx. lia.
Qed.

Lemma _get_node_source_IndexError (src : list string) (n : node) (e : exn) :
  _get_node_source src n = Raise e -> e = IndexError.
Proof.
  unfold _get_node_source.
  destruct (attrs_of n) as [[l|] [c|] [el|] [ec|]];
    cbn [lineno end_lineno col_offset end_col_offset]; try discriminate.
  destruct (l - 1 =? el - 1).
  - destruct (py_index_cases src (l - 1)) as [[_ [x Hx]] | [_ Hx]]; rewrite Hx;
      cbn [bind]; congruence.
  - destruct (py_index_cases src (l - 1)) as [[_ [x Hx]] | [_ Hx]]; rewrite Hx;
      cbn [bind]; [|congruence].
    destruct (py_index_cases src (el - 1)) as [[_ [y Hy]] | [_ Hy]]; rewrite Hy;
      cbn [bind]; congruence.
Qed.

(** For a node with its four position attributes, [_get_node_source]
    returns when its start line and its end line are valid indexes of the
    source lines (from the start or, for a line number below 1, from the
    end), and raises [IndexError] when one of them is not. *)
Theorem _get_node_source_raises (src : list string) (n : node) (l c el ec : Z) :
  attrs_of n = at_ l c el ec ->
  (valid_index (Z.of_nat (List.length src)) (l - 1)
   /\ valid_index (Z.of_nat (List.length src)) (el - 1) ->
   exists text, _get_node_source src n = Ok text)
  /\ (~ (valid_index (Z.of_nat (List.length src)) (l - 1)
         /\ valid_index (Z.of_nat (List.length src)) (el - 1)) ->
      _get_node_source src n = Raise IndexError).
Proof.
  intro Hattrs. unfold _get_node_source. rewrite Hattrs.
  cbn [at_ lineno end_lineno col_offset end_col_offset].
  destruct (l - 1 =? el - 1) eqn:Hsame.
  - apply Z.eqb_eq in Hsame. rewrite <- Hsame.
    destruct (py_index_cases src (l - 1)) as [[Hv [x Hx]] | [Hv Hx]]; rewrite Hx;
      cbn [bind].
    + split; [intros _; eexists; reflexivity | tauto].
    + split; [tauto | reflexivity].
  - destruct (py_index_cases src (l - 1)) as [[Hv [x Hx]] | [Hv Hx]]; rewrite Hx;
      cbn [bind].
    + destruct (py_index_cases src (el - 1)) as [[Hv' [y Hy]] | [Hv' Hy]]; rewrite Hy;
        cbn [bind].
      * split; [intros _; eexists; reflexivity | tauto].
      * split; [tauto | reflexivity].
    + split; [tauto | reflexivity].
Qed.

Lemma _get_node_source_raises_witness :
  attrs_of sample_bar = at_ 4 4 5 16
  /\ exists text, _get_node_source (splitlines sample_source) sample_bar = Ok text.
Proof.
  split; [reflexivity|].
  apply (proj1 (_get_node_source_raises (splitlines sample_source) sample_bar
                  4 4 5 16 eq_refl)).
  unfold valid_index. vm_compute. intuition discriminate.
Defined.

(** ** Import records *)

Lemma import_names_imports a module names v v' :
  import_names a module names v = Ok v' ->
  imports v' = imports v ++ flat_map (alias_import (lineno a) module) names
  /\ Forall (fun name => exists aa nm asname, name = Alias aa nm asname) names
  /\ (names <> [] -> lineno a <> None).
Proof.
  unfold import_names. revert v.
  induction names as [|name names IH]; intros v H; cbn [for_each] in H.
  - injection H as <-. cbn. rewrite app_nil_r. repeat split; [constructor | congruence].
  - destruct name; try discriminate.
    destruct (lineno a) as [line|] eqn:Hl; [|discriminate]. cbn [getattr bind] in H.
    apply IH in H. destruct H as (Hi & Hall & _). cbn [imports] in Hi.
    split; [|split].
    + rewrite Hi, <- app_assoc. reflexivity.
    + constructor; [now eexists; eexists; eexists | exact Hall].
    + intros _. discriminate.
Qed.

Lemma assign_targets_imports a targets value v v' :
  assign_targets a targets value v = Ok v' -> imports v' = imports v.
Proof.
  unfold assign_targets. revert v.
  induction targets as [|t targets IH]; intros v H; cbn [for_each] in H.
  - now injection H as <-.
  - destruct t; cbn [bind] in H; try (now apply IH in H).
    destruct (lineno a); [|discriminate]. cbn [getattr bind] in H.
    destruct (_get_node_source _ _); [|discriminate]. cbn [bind] in H.
    now apply IH in H.
Qed.

Lemma pre_visit_imports gd (n : node) (v v' : visitor) :
  pre_visit gd n v = Ok v' -> imports v' = imports v ++ own_imports n.
Proof.
  destruct n; cbn [pre_visit own_imports]; intro H;
    try (injection H as <-; now rewrite app_nil_r);
    try (apply import_names_imports in H; exact (proj1 H)).
  - destruct (class_record _ _ _); [|discriminate]. injection H as <-.
    cbn. now rewrite app_nil_r.
  - destruct (_process_function _ _ _); [|discriminate]. injection H as <-.
    cbn. now rewrite app_nil_r.
  - apply assign_targets_imports in H. now rewrite app_nil_r.
Qed.

Lemma visit_imports gd (n : node) : forall v v',
  visit gd n v = Ok v' -> imports v' = imports v ++ collect own_imports n.
Proof.
  induction n as [n IH] using node_children_ind. intros v v' H.
  rewrite visit_unfold in H.
  destruct (pre_visit gd n v) as [v1|] eqn:Hpre; [|discriminate].
  cbn [bind] in H. apply pre_visit_imports in Hpre.
  rewrite collect_eq, app_assoc, <- Hpre. clear Hpre v.
  revert v1 H. induction (iter_child_nodes n) as [|c l IHl]; intros v1 H.
  - injection H as <-. cbn. now rewrite app_nil_r.
  - cbn [for_each] in H.
    destruct (visit gd c v1) as [v2|] eqn:Hc; [|discriminate]. cbn [bind] in H.
    apply IH in Hc; [|now left]. cbn [flat_map]. rewrite app_assoc, <- Hc.
    apply IHl; [|exact H]. intros c' Hc'. apply IH. now right.
Qed.

(** After a traversal, [imports] holds one record per name of every
    [Import] and [ImportFrom] node of the tree, wherever the node is, in
    the order of the traversal: the record has the name ([module.name] for
    a [from module import name], the bare name when the module is missing
    or empty), the alias, and the line of the statement; and every record
    arises in this way. *)
Theorem imports_of_import_nodes gd (tree : node) (source : string) (v : visitor) :
  visit gd tree (init_visitor source) = Ok v ->
  imports v = collect own_imports tree
  /\ (forall a names aa nm asname,
        subnode (Import a names) tree -> In (Alias aa nm asname) names ->
        exists line, lineno a = Some line /\ In (mk_import nm asname line) (imports v))
  /\ (forall a module names aa nm asname,
        subnode (ImportFrom a module names) tree -> In (Alias aa nm asname) names ->
        exists line,
          lineno a = Some line
          /\ In (mk_import (imported_name module nm) asname line) (imports v))
  /\ (forall r, In r (imports v) ->
        exists a module names aa nm,
          (subnode (Import a names) tree /\ module = None
           \/ subnode (ImportFrom a module names) tree)
          /\ In (Alias aa nm (import_alias r)) names
          /\ import_name r = imported_name module nm
          /\ lineno a = Some (import_line r)).
Proof.
  intro Hv. pose proof (visit_imports gd tree _ _ Hv) as HI.
  cbn [init_visitor imports app] in HI.
  assert (Hone : forall a module names aa nm asname d,
            (d = Import a names /\ module = None \/ d = ImportFrom a module names) ->
            subnode d tree -> In (Alias aa nm asname) names ->
            exists line,
              lineno a = Some line
              /\ In (mk_import (imported_name module nm) asname line) (imports v)).
  { intros a module names aa nm asname d Hd Hsub Hin.
    destruct (visit_reaches gd _ _ Hsub _ _ Hv) as (v1 & v2 & _ & Hpre).
    assert (Himp : import_names a module names v1 = Ok v2)
      by (destruct Hd as [[-> ->] | ->]; exact Hpre).
    apply import_names_imports in Himp. destruct Himp as (_ & _ & Hline).
    destruct (lineno a) as [line|] eqn:Hl;
      [|exfalso; apply Hline; [intros ->; destruct Hin | reflexivity]].
    exists line. split; [reflexivity|].
    rewrite HI. apply In_collect. exists d. split; [exact Hsub|].
    assert (Hown : own_imports d = flat_map (alias_import (Some line) module) names)
      by (destruct Hd as [[-> ->] | ->]; cbn [own_imports]; now rewrite Hl).
    rewrite Hown. apply in_flat_map. exists (Alias aa nm asname).
    split; [exact Hin | now left]. }
  split; [exact HI|]. split; [|split].
  - intros a names aa nm asname Hsub Hin.
    exact (Hone a None names aa nm asname _ (or_introl (conj eq_refl eq_refl)) Hsub Hin).
  - intros a module names aa nm asname Hsub Hin.
    exact (Hone a module names aa nm asname _ (or_intror eq_refl) Hsub Hin).
  - intros r Hr. rewrite HI in Hr. apply In_collect in Hr.
    destruct Hr as (d & Hd & Hr).
    assert (Hflat : forall a module names,
              In r (flat_map (alias_import (lineno a) module) names) ->
              exists aa nm,
                In (Alias aa nm (import_alias r)) names
                /\ import_name r = imported_name module nm
                /\ lineno a = Some (import_line r)).
    { intros a module names H. apply in_flat_map in H. destruct H as (name & Hin & H).
      destruct name; try destruct H. cbn [alias_import] in H.
      destruct (lineno a) as [line|]; [|destruct H]. destruct H as [<- | []].
      cbn. eexists; eexists. split; [exact Hin | split; reflexivity]. }
    destruct d; try destruct Hr; cbn [own_imports] in Hr.
    + destruct (Hflat _ _ _ Hr) as (aa & nm & H1 & H2 & H3).
      exists a, None, names, aa, nm. tauto.
    + destruct (Hflat _ _ _ Hr) as (aa & nm & H1 & H2 & H3).
      exists a, module, names, aa, nm. tauto.
Qed.

Lemma visit_sample_file :
  visit sample_docstring sample_tree (init_visitor sample_source)
  = Ok (mk_visitor (splitlines sample_source)
          (dict_get (fs_imports sample_file_structure) [])
          (dict_get (fs_classes sample_file_structure) [])
          (match dict_get (fs_classes sample_file_structure) [] with
           | c :: _ => class_methods c
           | [] => []
           end ++ dict_get (fs_functions sample_file_structure) [])
          [mk_variable "x" 7 "1"]).
Proof. vm_compute. reflexivity. Qed.

Lemma imports_of_import_nodes_witness :
  visit sample_docstring sample_tree (init_visitor sample_source)
  = Ok (mk_visitor (splitlines sample_source)
          (dict_get (fs_imports sample_file_structure) [])
          (dict_get (fs_classes sample_file_structure) [])
          (match dict_get (fs_classes sample_file_structure) [] with
           | c :: _ => class_methods c
           | [] => []
           end ++ dict_get (fs_functions sample_file_structure) [])
          [mk_variable "x" 7 "1"])
  /\ [mk_import "os" None 1] = collect own_imports sample_tree.
Proof.
  split; [exact visit_sample_file|].
  exact (proj1 (imports_of_import_nodes sample_docstring sample_tree sample_source
                  _ visit_sample_file)).
Defined.

(** ** Class records *)

Lemma methods_loop_exact gd src (body : list node) : forall acc methods,
  for_each body
    (fun item methods =>
       if is_FunctionDef item then
         method_info <- _process_function gd src item ;;
         Ok (methods ++ [method_info])
       else Ok methods) acc = Ok methods ->
  exists new,
    methods = acc ++ new
    /\ Forall2 (fun item m => _process_function gd src item = Ok m)
         (filter is_FunctionDef body) new.
Proof.
  induction body as [|item body IH]; intros acc methods H; cbn [for_each] in H.
  - injection H as <-. exists []. split; [now rewrite app_nil_r | constructor].
  - cbn [filter]. destruct (is_FunctionDef item) eqn:Hf.
    + destruct (_process_function gd src item) as [mi|] eqn:Hp; [|discriminate].
      cbn [bind] in H. destruct (IH _ _ H) as (new & -> & Hnew).
      exists (mi :: new). split; [now rewrite <- app_assoc | now constructor].
    + cbn [bind] in H. exact (IH _ _ H).
Qed.

Lemma bases_loop_exact src (bases : list node) : forall acc names,
  for_each bases (fun base acc => b <- _get_name src base ;; Ok (acc ++ [b])) acc
  = Ok names ->
  exists new,
    names = acc ++ new /\ Forall2 (fun base b => _get_name src base = Ok b) bases new.
Proof.
  induction bases as [|base bases IH]; intros acc names H; cbn [for_each] in H.
  - injection H as <-. exists []. split; [now rewrite app_nil_r | constructor].
  - destruct (_get_name src base) as [b|] eqn:Hb; [|discriminate]. cbn [bind] in H.
    destruct (IH _ _ H) as (new & -> & Hnew).
    exists (b :: new). split; [now rewrite <- app_assoc | now constructor].
Qed.

Lemma class_record_exact gd src a name bases keywords body decorator_list
  (c : class_info) :
  class_record gd src (ClassDef a name bases keywords body decorator_list) = Ok c ->
  class_name c = name
  /\ (exists el, lineno a = Some (fst (class_line_range c))
                 /\ _get_end_line (ClassDef a name bases keywords body decorator_list)
                    = Ok el
                 /\ snd (class_line_range c) = el)
  /\ Forall2 (fun item m => _process_function gd src item = Ok m)
       (filter is_FunctionDef body) (class_methods c)
  /\ (bases = [] -> class_bases c = None)
  /\ (bases <> [] ->
      exists names,
        class_bases c = Some names
        /\ Forall2 (fun base b => _get_name src base = Ok b) bases names).
Proof.
  unfold class_record.
  destruct (lineno a) as [l|]; [|discriminate]. cbn [getattr bind].
  destruct (_get_end_line _) as [el|]; [|discriminate]. cbn [bind].
  destruct (_get_node_source _ _) as [content|]; [|discriminate]. cbn [bind].
  destruct bases as [|b0 bases].
  - cbn [bind].
    match goal with |- context [bind ?r _] => destruct r as [ms|] eqn:Hms; [|discriminate] end.
    cbn [bind]. intro H. injection H as <-. cbn.
    destruct (methods_loop_exact _ _ _ _ _ Hms) as (new & -> & Hnew).
    repeat split; try assumption; [now exists el | congruence].
  - match goal with
    | |- context [for_each (b0 :: bases) ?f []] =>
        destruct (for_each (b0 :: bases) f []) as [names|] eqn:Hnames; [|discriminate]
    end.
    cbn [bind].
    match goal with |- context [bind ?r _] => destruct r as [ms|] eqn:Hms; [|discriminate] end.
    cbn [bind]. intro H. injection H as <-. cbn.
    destruct (methods_loop_exact _ _ _ _ _ Hms) as (new & -> & Hnew).
    destruct (bases_loop_exact _ _ _ _ Hnames) as (nn & -> & Hnn).
    repeat split; try assumption; [now exists el | discriminate |].
    intros _. exists nn. split; [reflexivity | exact Hnn].
Qed.

(** After a traversal, every [ClassDef] node of the tree, nested ones
    included, has its record in [classes], with the name of the class and
    its start line; the methods of the record are the records of the
    [FunctionDef] statements of the class body itself, in the order of the
    body, and nothing else; the record has base names exactly when the
    class has bases, one name per base in order. *)
Theorem classes_of_class_defs gd (tree : node) (source : string) (v : visitor) :
  visit gd tree (init_visitor source) = Ok v ->
  let src := splitlines source in
  classes v = collect (own_classes gd src) tree
  /\ forall a name bases keywords body decorator_list,
       subnode (ClassDef a name bases keywords body decorator_list) tree ->
       exists c,
         In c (classes v)
         /\ class_name c = name
         /\ lineno a = Some (fst (class_line_range c))
         /\ Forall2 (fun item m => _process_function gd src item = Ok m)
              (filter is_FunctionDef body) (class_methods c)
         /\ (bases = [] -> class_bases c = None)
         /\ (bases <> [] ->
             exists names,
               class_bases c = Some names
               /\ Forall2 (fun base b => _get_name src base = Ok b) bases names).
Proof.
  intros Hv src.
  pose proof (visit_extends gd tree _ _ Hv) as (_ & HC & _ & _).
  cbn [init_visitor source_lines classes app] in HC. fold src in HC.
  split; [exact HC|].
  intros a name bases keywords body decorator_list Hsub.
  destruct (visit_reaches gd _ _ Hsub _ _ Hv) as (v1 & v2 & Hs & Hpre).
  cbn [pre_visit] in Hpre. cbn [init_visitor source_lines] in Hs.
  rewrite Hs in Hpre. fold src in Hpre.
  destruct (class_record gd src (ClassDef a name bases keywords body decorator_list))
    as [c|] eqn:Hc; [|discriminate].
  exists c. split.
  - rewrite HC. apply In_collect. eexists. split; [exact Hsub|].
    unfold own_classes. rewrite Hc. now left.
  - destruct (class_record_exact _ _ _ _ _ _ _ _ _ Hc)
      as (Hn & (el & Hl & _) & Hm & Hb0 & Hb1).
    repeat split; assumption.
Qed.

Lemma classes_of_class_defs_witness :
  visit sample_docstring sample_tree (init_visitor sample_source)
  = Ok (mk_visitor (splitlines sample_source)
          (dict_get (fs_imports sample_file_structure) [])
          (dict_get (fs_classes sample_file_structure) [])
          (match dict_get (fs_classes sample_file_structure) [] with
           | c :: _ => class_methods c
           | [] => []
           end ++ dict_get (fs_functions sample_file_structure) [])
          [mk_variable "x" 7 "1"])
  /\ dict_get (fs_classes sample_file_structure) []
     = collect (own_classes sample_docstring (splitlines sample_source)) sample_tree.
Proof.
  split; [exact visit_sample_file|].
  exact (proj1 (classes_of_class_defs sample_docstring sample_tree sample_source
                  _ visit_sample_file)).
Defined.

(** ** Dotted names *)

Lemma join_with_snoc (sep : string) (l : list string) (x y : string) :
  join_with sep ((x :: l) ++ [y]) = (join_with sep (x :: l) ++ sep ++ y)%string.
Proof.
  revert x. induction l as [|z l IH]; intro x.
  - reflexivity.
  - change ((x :: z :: l) ++ [y]) with (x :: ((z :: l) ++ [y])).
    change (join_with sep (x :: (z :: l) ++ [y]))
      with (x ++ sep ++ join_with sep ((z :: l) ++ [y]))%string.
    rewrite IH.
    change (join_with sep (x :: z :: l)) with (x ++ sep ++ join_with sep (z :: l))%string.
    rewrite !append_assoc. reflexivity.
Qed.

(** The name found for [root.attr1...attrk] is the dotted path
    [root.attr1...attrk], whatever the positions of the nodes and the
    source text, and so is the name found for a call of it: the base of a
    class written [pkg.mod.Base(...)] is listed as [pkg.mod.Base]. *)
Theorem _get_name_dotted (src : list string) (a0 : attrs) (root : string)
  (items : list (attrs * string)) :
  _get_name src (attribute_chain a0 root items)
  = Ok (join_with "." (root :: map snd items))
  /\ forall a args keywords,
       _get_name src (Call a (attribute_chain a0 root items) args keywords)
       = Ok (join_with "." (root :: map snd items)).
Proof.
  assert (H : _get_name src (attribute_chain a0 root items)
              = Ok (join_with "." (root :: map snd items))).
  { unfold attribute_chain.
    induction items as [|[a attr] items IH] using rev_ind; [reflexivity|].
    rewrite fold_left_app. cbn [fold_left fst snd _get_name].
    rewrite IH. cbn [bind]. rewrite map_app. cbn [map snd].
    change (root :: map snd items ++ [attr]) with ((root :: map snd items) ++ [attr]).
    rewrite join_with_snoc. reflexivity. }
  split; [exact H|]. intros a args keywords. cbn [_get_name]. exact H.
Qed.

(** ** Parameters whatever the defaults *)

Lemma py_index_nth {A : Type} (l : list A) (i : Z) (x : A) :
  py_index l i = Ok x ->
  nth_error l (Z.to_nat (if i <? 0 then i + Z.of_nat (List.length l) else i)) = Some x.
Proof.
  unfold py_index. cbv zeta.
  destruct (_ || _); [discriminate|].
  destruct (nth_error l _) as [y|]; [|discriminate].
  intro H. now injection H as <-.
Qed.

Lemma py_update_ok {A : Type} (l l' : list A) (i : Z) (g : A -> A) :
  py_update l i g = Ok l' ->
  exists l1 x l2, l = l1 ++ x :: l2 /\ l' = l1 ++ g x :: l2.
Proof.
  unfold py_update. destruct (py_index l i) as [x|] eqn:Hx; [|discriminate].
  cbn [bind]. intro H. injection H as <-.
  apply py_index_nth in Hx. apply nth_error_split in Hx.
  destruct Hx as (l1 & l2 & Hl & Hlen).
  exists l1, x, l2. split; [exact Hl|].
  rewrite <- Hlen. clear Hlen. subst l.
  assert (E : skipn (S (List.length l1)) (l1 ++ x :: l2) = l2)
    by (clear; induction l1 as [|y l1 IH]; [reflexivity | exact IH]).
  change (firstn (List.length l1) (l1 ++ x :: l2)
          ++ g x :: skipn (S (List.length l1)) (l1 ++ x :: l2) = l1 ++ g x :: l2).
  rewrite E, firstn_app, firstn_all, Nat.sub_diag. cbn [firstn].
  now rewrite app_nil_r.
Qed.

Lemma py_update_valid {A : Type} (l : list A) (i : Z) (g : A -> A) :
  valid_index (Z.of_nat (List.length l)) i -> exists l', py_update l i g = Ok l'.
Proof.
  intro Hv. unfold py_update.
  destruct (py_index_cases l i) as [[_ [x Hx]] | [Hno _]]; [|contradiction].
  rewrite Hx. cbn [bind]. eexists. reflexivity.
Qed.

Lemma py_update_invalid {A : Type} (l : list A) (i : Z) (g : A -> A) :
  ~ valid_index (Z.of_nat (List.length l)) i -> py_update l i g = Raise IndexError.
Proof.
  intro Hv. unfold py_update.
  destruct (py_index_cases l i) as [[Hyes _] | [_ Hx]]; [contradiction|].
  now rewrite Hx.
Qed.

Lemma same_param_refl (l : list param_info) : Forall2 same_param l l.
Proof. induction l; constructor; [split; reflexivity | assumption]. Qed.

Lemma same_param_trans (l1 l2 l3 : list param_info) :
  Forall2 same_param l1 l2 -> Forall2 same_param l2 l3 -> Forall2 same_param l1 l3.
Proof.
  intro H. revert l3. induction H as [|p q l1 l2 [Hn Ht] _ IH]; intros l3 H3;
    inversion H3 as [|? r ? l3' [Hn' Ht'] H3']; subst; constructor.
  - split; congruence.
  - now apply IH.
Qed.

Lemma set_default_same (l l' : list param_info) (i : Z) (d : string) :
  py_update l i (set_default d) = Ok l' -> Forall2 same_param l l'.
Proof.
  intro H. apply py_update_ok in H. destruct H as (l1 & x & l2 & -> & ->).
  apply Forall2_app; [apply same_param_refl|].
  constructor; [split; reflexivity | apply same_param_refl].
Qed.

Lemma default_loop_same (src : list string) (offset : Z) (items : list (Z * node)) :
  forall ps ps',
    for_each items (align_default src offset) ps = Ok ps' -> Forall2 same_param ps ps'.
Proof.
  induction items as [|[i d] items IH]; intros ps ps' H; cbn [for_each] in H.
  - injection H as <-. apply same_param_refl.
  - cbn [align_default] in H.
    destruct (_get_node_source src d) as [t|]; [|discriminate]. cbn [bind] in H.
    destruct (py_update ps (offset + i) (set_default t)) as [ps1|] eqn:Hu;
      [|discriminate].
    cbn [bind] in H. apply set_default_same in Hu.
    eapply same_param_trans; [exact Hu | exact (IH _ _ H)].
Qed.

Lemma param_loop_inv (src : list string) (args : list node) :
  forall acc ps,
    for_each args (param_of_arg src) acc = Ok ps ->
    exists new, ps = acc ++ new /\ Forall2 (arg_param src) args new.
Proof.
  induction args as [|arg args IH]; intros acc ps H; cbn [for_each] in H.
  - injection H as <-. exists []. split; [now rewrite app_nil_r | constructor].
  - destruct arg; try discriminate. cbn [param_of_arg] in H.
    match type of H with
    | bind (bind ?r _) _ = _ => destruct r as [type|] eqn:Ht; [|discriminate]
    end.
    cbn [bind] in H. destruct (IH _ _ H) as (new & -> & Hnew).
    exists (mk_param arg type None :: new).
    split; [now rewrite <- app_assoc|]. constructor; [|exact Hnew].
    exists a, annotation. cbn. repeat split.
    destruct annotation as [ann|].
    + destruct (_get_node_source src ann) as [t|]; [|discriminate].
      injection Ht as <-. now exists t.
    + now injection Ht as <-.
Qed.

(** When the extraction of the parameters of a function returns, it
    returns one record per node of [args], in order, with the name of the
    parameter and the text of its annotation if it has one: the alignment
    of the defaults never adds, drops, reorders or renames a parameter;
    and without defaults no record carries one. *)
Theorem _extract_parameters_names (src : list string) a name a' posonlyargs args vararg
  kwonlyargs kw_defaults kwarg defaults body decorator_list returns
  (params : list param_info) :
  _extract_parameters src
    (FunctionDef a name
       (Arguments a' posonlyargs args vararg kwonlyargs kw_defaults kwarg defaults)
       body decorator_list returns) = Ok params ->
  Forall2 (arg_named src) args params
  /\ List.length params = List.length args
  /\ (defaults = [] -> Forall (fun p => param_default p = None) params).
Proof.
  cbn [_extract_parameters].
  destruct (for_each args (param_of_arg src) []) as [ps|] eqn:Hps; [|discriminate].
  cbn [bind]. apply param_loop_inv in Hps. destruct Hps as (new & -> & Hnew).
  cbn [app]. intro H.
  assert (Hsame : Forall2 same_param new params).
  { destruct defaults; [injection H as <-; apply same_param_refl|].
    exact (default_loop_same _ _ _ _ _ H). }
  assert (Hnamed : Forall2 (arg_named src) args params).
  { clear H. revert params Hsame.
    induction Hnew as [|arg p args new (aa & ann & -> & _ & Hann) _ IH];
      intros params Hsame; inversion Hsame as [|? q ? params' [Hn Ht] Hs']; subst;
      constructor; [|now apply IH].
    exists aa, ann. rewrite <- Hn, <- Ht. split; [reflexivity | exact Hann]. }
  split; [exact Hnamed|]. split.
  - symmetry. exact (Forall2_length Hnamed).
  - intros ->. injection H as <-. exact (arg_param_no_default _ _ _ Hnew).
Qed.

Lemma _extract_parameters_names_witness :
  _extract_parameters (splitlines two_defaults_source) two_defaults_def
  = Ok [mk_param "b" None (Some "2")]
  /\ List.length [mk_param "b" None (Some "2")] = 1%nat.
Proof.
  assert (H : _extract_parameters (splitlines two_defaults_source) two_defaults_def
              = Ok [mk_param "b" None (Some "2")]) by (vm_compute; reflexivity).
  split; [exact H|].
  exact (proj1 (proj2 (_extract_parameters_names _ _ _ _ _ _ _ _ _ _ _ _ _ _ _ H))).
Defined.

(** With more than twice as many defaults as nodes in [args], the
    extraction of the parameters raises [IndexError]: the first default is
    aligned at an index that lies before the start of the list even when
    counted from its end. *)
Theorem _extract_parameters_too_many_defaults (src : list string) a name a'
  posonlyargs args vararg kwonlyargs kw_defaults kwarg defaults body decorator_list
  returns (ps : list param_info) :
  Forall2 (arg_param src) args ps ->
  (2 * List.length args < List.length defaults)%nat ->
  _extract_parameters src
    (FunctionDef a name
       (Arguments a' posonlyargs args vararg kwonlyargs kw_defaults kwarg defaults)
       body decorator_list returns) = Raise IndexError.
Proof.
  intros Hargs Hk. cbn [_extract_parameters].
  rewrite (param_loop src args ps Hargs []). cbn [app bind].
  pose proof (Forall2_length Hargs) as Hn.
  destruct defaults as [|d ds]; [cbn in Hk; lia|].
  cbn [enumerate_from for_each align_default].
  destruct (_get_node_source src d) as [t|e] eqn:Hd.
  - cbn [bind]. rewrite py_update_invalid; [reflexivity|].
    unfold valid_index. cbn [List.length] in *. lia.
  - cbn [bind]. f_equal.
    exact (_get_node_source_IndexError src d e Hd).
Qed.

Lemma _extract_parameters_too_many_defaults_witness :
  Forall2 (arg_param (splitlines posonly_source)) [] []
  /\ (2 * List.length (@nil node) < List.length [Other (at_ 1 8 1 9) []])%nat
  /\ _extract_parameters (splitlines posonly_source) posonly_def = Raise IndexError.
Proof.
  assert (H1 : Forall2 (arg_param (splitlines posonly_source)) [] []) by constructor.
  assert (H2 : (2 * List.length (@nil node) < List.length [Other (at_ 1 8 1 9) []])%nat)
    by (cbn; lia).
  split; [exact H1|]. split; [exact H2|].
  exact (_extract_parameters_too_many_defaults (splitlines posonly_source)
           _ _ _ _ _ _ _ _ _ _ _ _ _ [] H1 H2).
Defined.

Lemma enumerate_from_app {A : Type} (l1 l2 : list A) (i : Z) :
  enumerate_from i (l1 ++ l2)
  = enumerate_from i l1 ++ enumerate_from (i + Z.of_nat (List.length l1)) l2.
Proof.
  revert i. induction l1 as [|x l1 IH]; intro i; cbn [app enumerate_from List.length].
  - now rewrite Z.add_0_r.
  - rewrite IH. do 3 f_equal. lia.
Qed.

Lemma for_each_app {A S : Type} (l1 l2 : list A) (f : A -> S -> result S) (s : S) :
  for_each (l1 ++ l2) f s = s' <- for_each l1 f s ;; for_each l2 f s'.
Proof.
  revert s. induction l1 as [|x l1 IH]; intro s; cbn [app for_each]; [reflexivity|].
  destruct (f x s); cbn [bind]; [apply IH | reflexivity].
Qed.

(** Defaults aligned at valid indexes change nothing but defaults. *)
Lemma default_loop_valid (src : list string) (offset : Z) (ds : list node)
  (texts : list string) :
  Forall2 (fun d t => _get_node_source src d = Ok t) ds texts ->
  forall (i : Z) (ps : list param_info),
    (forall j, 0 <= j < Z.of_nat (List.length ds) ->
       valid_index (Z.of_nat (List.length ps)) (offset + i + j)) ->
    exists ps',
      for_each (enumerate_from i ds) (align_default src offset) ps = Ok ps'
      /\ Forall2 same_param ps ps'.
Proof.
  induction 1 as [|d t ds texts Hd _ IH]; intros i ps Hv.
  - exists ps. split; [reflexivity | apply same_param_refl].
  - cbn [enumerate_from for_each align_default]. rewrite Hd. cbn [bind].
    destruct (py_update_valid ps (offset + i) (set_default t)) as [ps1 Hu].
    { specialize (Hv 0). rewrite Z.add_0_r in Hv. apply Hv.
      cbn [List.length]. lia. }
    rewrite Hu. cbn [bind]. pose proof (set_default_same _ _ _ _ Hu) as Hs1.
    destruct (IH (i + 1) ps1) as (ps' & Hloop & Hs').
    { intros j Hj. rewrite <- (Forall2_length Hs1).
      replace (offset + (i + 1) + j) with (offset + i + (j + 1)) by lia.
      apply Hv. cbn [List.length]. lia. }
    exists ps'. split; [exact Hloop|].
    eapply same_param_trans; eassumption.
Qed.

Lemma with_defaults_same (texts : list string) (ps ps' : list param_info) :
  Forall2 same_param ps ps' -> List.length texts = List.length ps ->
  with_defaults texts ps' = with_defaults texts ps.
Proof.
  intro H. revert texts. induction H as [|p q ps ps' [Hn Ht] _ IH]; intros texts Hlen.
  - destruct texts; [reflexivity | discriminate].
  - destruct texts as [|t texts]; [discriminate|]. cbn [with_defaults].
    rewrite IH by (now injection Hlen). unfold set_default. now rewrite Hn, Ht.
Qed.

(** With more defaults than nodes in [args], but no more than twice as
    many, the extraction of the parameters returns: the first defaults are
    aligned at negative indexes, which count from the end of the list, and
    are then overwritten; every parameter ends with a default, the last
    defaults in order. *)
Theorem _extract_parameters_wrapped (src : list string) a name a' posonlyargs args
  vararg kwonlyargs kw_defaults kwarg defaults body decorator_list returns
  (ps : list param_info) (texts : list string) :
  Forall2 (arg_param src) args ps ->
  Forall2 (fun d t => _get_node_source src d = Ok t) defaults texts ->
  (List.length args < List.length defaults <= 2 * List.length args)%nat ->
  let k := List.length defaults in
  let n := List.length args in
  _extract_parameters src
    (FunctionDef a name
       (Arguments a' posonlyargs args vararg kwonlyargs kw_defaults kwarg defaults)
       body decorator_list returns)
  = Ok (with_defaults (skipn (k - n) texts) ps)
  /\ Forall2 (fun p t => param_default p = Some t)
       (with_defaults (skipn (k - n) texts) ps) (skipn (k - n) texts).
Proof.
  intros Hargs Hds Hk k n.
  pose proof (Forall2_length Hargs) as Hn. pose proof (Forall2_length Hds) as Hkt.
  fold n in Hn. fold k in Hkt. fold n k in Hk.
  assert (Hlen2 : List.length (skipn (k - n) texts) = List.length ps)
    by (rewrite length_skipn; lia).
  split; [|apply with_defaults_set; exact Hlen2].
  cbn [_extract_parameters]. rewrite (param_loop src args ps Hargs []).
  cbn [app bind].
  assert (Hgen : for_each (enumerate_from 0 defaults)
                   (align_default src (Z.of_nat n - Z.of_nat k)) ps
                 = Ok (with_defaults (skipn (k - n) texts) ps)).
  { rewrite <- (firstn_skipn (k - n) defaults) in Hds.
    apply Forall2_app_inv_l in Hds. destruct Hds as (t1 & t2 & H1 & H2 & Ht).
    assert (Ht1 : List.length t1 = (k - n)%nat).
    { rewrite <- (Forall2_length H1), length_firstn. fold k. lia. }
    assert (Hskip : skipn (k - n) texts = t2).
    { rewrite Ht, <- Ht1, skipn_app, skipn_all, Nat.sub_diag. reflexivity. }
    rewrite Hskip in *.
    rewrite <- (firstn_skipn (k - n) defaults), enumerate_from_app, for_each_app.
    destruct (default_loop_valid src (Z.of_nat n - Z.of_nat k) _ _ H1 0 ps)
      as (ps1 & Hloop1 & Hsame).
    { intros j Hj. rewrite length_firstn in Hj. fold k in Hj.
      unfold valid_index. lia. }
    rewrite Hloop1. cbn [bind].
    rewrite length_firstn. fold k. replace (Nat.min (k - n) k) with (k - n)%nat by lia.
    change ps1 with ([] ++ ps1).
    rewrite (default_loop src _ _ _ H2 _ [] ps1).
    - cbn [app]. f_equal. apply with_defaults_same; [exact Hsame | exact Hlen2].
    - cbn [List.length]. lia.
    - rewrite length_skipn, <- (Forall2_length Hsame). fold k. lia. }
  subst k n. destruct defaults; [cbn in Hk; lia | exact Hgen].
Qed.

Lemma _extract_parameters_wrapped_witness :
  Forall2 (arg_param (splitlines two_defaults_source))
    [Arg (at_ 1 14 1 15) "b" None] [mk_param "b" None None]
  /\ Forall2 (fun d t => _get_node_source (splitlines two_defaults_source) d = Ok t)
       [Other (at_ 1 8 1 9) []; Other (at_ 1 16 1 17) []] ["1"; "2"]
  /\ _extract_parameters (splitlines two_defaults_source) two_defaults_def
     = Ok [mk_param "b" None (Some "2")].
Proof.
  assert (H1 : Forall2 (arg_param (splitlines two_defaults_source))
                 [Arg (at_ 1 14 1 15) "b" None] [mk_param "b" None None]).
  { constructor; [|constructor]. eexists; eexists. repeat split. }
  assert (H2 : Forall2
                 (fun d t => _get_node_source (splitlines two_defaults_source) d = Ok t)
                 [Other (at_ 1 8 1 9) []; Other (at_ 1 16 1 17) []] ["1"; "2"]).
  { repeat constructor. }
  split; [exact H1|]. split; [exact H2|].
  refine (proj1 (_extract_parameters_wrapped (splitlines two_defaults_source)
                   _ _ _ _ _ _ _ _ _ _ _ _ _ _ _ H1 H2 _)).
  cbn. lia.
Defined.

(** ** The chunks of a file structure, one by one *)

Lemma In_extract_chunks (fs : file_structure) (ch : chunk) :
  In ch (extract_chunks fs) <->
  (exists c, In c (dict_get (fs_classes fs) [])
             /\ (ch = class_chunk (file_path fs) c
                 \/ exists m, In m (class_methods c)
                              /\ ch = method_chunk (file_path fs) c m))
  \/ (exists f, In f (dict_get (fs_functions fs) [])
                /\ ch = func_chunk (file_path fs) f).
Proof.
  rewrite extract_chunks_eq, in_app_iff, in_flat_map, in_map_iff.
  unfold chunks_of_class. split.
  - intros [(c & Hc & [<- | H]) | (f & <- & Hf)].
    + left. exists c. tauto.
    + apply in_map_iff in H. destruct H as (m & <- & Hm).
      left. exists c. split; [exact Hc|]. right. now exists m.
    + right. now exists f.
  - intros [(c & Hc & [-> | (m & Hm & ->)]) | (f & Hf & ->)].
    + left. exists c. split; [exact Hc | now left].
    + left. exists c. split; [exact Hc|]. right. now apply in_map.
    + right. now exists f.
Qed.

(** Every chunk of a file structure carries the path of the file; its
    identifier is [path:type:qualified_name], the qualified name being
    [Class.name] when the chunk names a class and the bare name otherwise;
    a class chunk has no class name, no parameters and no return entry; a
    method chunk has all three; a function chunk has parameters and a
    return entry and no class name; and there is no fourth type. *)
Theorem chunk_shape (fs : file_structure) (ch : chunk) :
  In ch (extract_chunks fs) ->
  chunk_file_path ch = file_path fs
  /\ chunk_id ch
     = (file_path fs ++ ":" ++ chunk_type ch ++ ":" ++ chunk_qualified_name ch)%string
  /\ (chunk_type ch = "class" /\ chunk_class_name ch = None
      /\ chunk_params ch = None /\ chunk_returns ch = None
      \/ chunk_type ch = "method" /\ chunk_class_name ch <> None
         /\ chunk_params ch <> None /\ chunk_returns ch <> None
      \/ chunk_type ch = "function" /\ chunk_class_name ch = None
         /\ chunk_params ch <> None /\ chunk_returns ch <> None).
Proof.
  intro H. apply In_extract_chunks in H.
  destruct H as [(c & _ & [-> | (m & _ & ->)]) | (f & _ & ->)].
  - split; [reflexivity|]. split; [reflexivity|]. left. repeat split.
  - split; [reflexivity|]. split; [reflexivity|]. right. left.
    repeat split; discriminate.
  - split; [reflexivity|]. split; [reflexivity|]. right. right.
    repeat split; discriminate.
Qed.

Lemma chunk_shape_witness :
  In (func_chunk "a.py" (mk_func "baz" (6, 7)
                           ("def baz():" ++ String "010" "    x = 1") None [] None))
     (extract_chunks sample_file_structure)
  /\ chunk_id (func_chunk "a.py" (mk_func "baz" (6, 7)
                                    ("def baz():" ++ String "010" "    x = 1")
                                    None [] None))
     = "a.py:function:baz".
Proof.
  assert (H : In (func_chunk "a.py"
                    (mk_func "baz" (6, 7) ("def baz():" ++ String "010" "    x = 1")
                       None [] None))
                (extract_chunks sample_file_structure)).
  { vm_compute. right. right. left. reflexivity. }
  split; [exact H|].
  exact (proj1 (proj2 (chunk_shape sample_file_structure _ H))).
Defined.

(** For the file structure that the analysis of a file returns, no chunk
    of type function has the name and the line range of a chunk of type
    method: a method is never chunked a second time as a function. *)
Theorem no_method_chunked_twice gd read_file ast_parse path fs (c1 c2 : chunk) :
  analyze gd read_file ast_parse path = Ok fs ->
  In c1 (extract_chunks fs) -> In c2 (extract_chunks fs) ->
  chunk_type c1 = "function" -> chunk_type c2 = "method" ->
  (chunk_name c1, chunk_line_range c1) <> (chunk_name c2, chunk_line_range c2).
Proof.
  intros Ha H1 H2 T1 T2. apply analyze_inv in Ha.
  destruct Ha as (content & tree & v & _ & _ & _ & ->).
  apply In_extract_chunks in H1, H2.
  cbn [fs_classes fs_functions dict_get file_path] in H1, H2.
  destruct H1 as [(c & _ & [-> | (m & _ & ->)]) | (f & Hf & ->)];
    try discriminate T1.
  destruct H2 as [(c & Hc & [-> | (m & Hm & ->)]) | (f' & _ & ->)];
    try discriminate T2.
  cbn [func_chunk method_chunk chunk_name chunk_line_range].
  apply filter_methods_from_functions_spec in Hf. destruct Hf as [_ Hf].
  exact (Hf c m Hc Hm).
Qed.

Lemma no_method_chunked_twice_witness :
  analyze sample_docstring (fun _ => Ok sample_source) (fun _ => Ok sample_tree) "a.py"
  = Ok sample_file_structure
  /\ forall c1 c2,
       In c1 (extract_chunks sample_file_structure) ->
       In c2 (extract_chunks sample_file_structure) ->
       chunk_type c1 = "function" -> chunk_type c2 = "method" ->
       (chunk_name c1, chunk_line_range c1) <> (chunk_name c2, chunk_line_range c2).
Proof.
  assert (H : analyze sample_docstring (fun _ => Ok sample_source)
                (fun _ => Ok sample_tree) "a.py" = Ok sample_file_structure)
    by (vm_compute; reflexivity).
  split; [exact H|]. intros c1 c2.
  exact (no_method_chunked_twice sample_docstring _ _ "a.py" sample_file_structure
           c1 c2 H).
Defined.

(** ** The chunks of a repository run *)

Lemma extract_chunks_error (fs : file_structure) :
  is_error fs = true -> extract_chunks fs = [].
Proof.
  unfold is_error. rewrite !andb_true_iff, !negb_true_iff.
  intros ((((_ & _) & Hc) & Hf) & _).
  unfold extract_chunks.
  destruct (fs_classes fs); [discriminate|]. destruct (fs_functions fs); [discriminate|].
  reflexivity.
Qed.

(** The chunks of a repository run are the chunks of its file structures,
    one file after the other in the order of the run; the error
    dictionaries among them contribute nothing, so that the run has the
    chunks of the run without them, and no chunk at all when every file
    failed. *)
Theorem all_chunks_skip_errors (files : list file_structure) :
  all_chunks files = flat_map extract_chunks files
  /\ all_chunks files = all_chunks (filter (fun fs => negb (is_error fs)) files)
  /\ List.length (all_chunks files)
     = list_sum (map (fun fs => List.length (extract_chunks fs)) files)
  /\ ((forall fs, In fs files -> is_error fs = true) -> all_chunks files = []).
Proof.
  rewrite !all_chunks_eq. split; [reflexivity|].
  assert (Hskip : flat_map extract_chunks files
                  = flat_map extract_chunks
                      (filter (fun fs => negb (is_error fs)) files)).
  { induction files as [|fs files IH]; [reflexivity|]. cbn [flat_map filter].
    destruct (is_error fs) eqn:E; cbn [negb flat_map].
    - now rewrite (extract_chunks_error fs E).
    - now rewrite IH. }
  assert (Hlen : List.length (flat_map extract_chunks files)
                 = list_sum (map (fun fs => List.length (extract_chunks fs)) files)).
  { clear Hskip. induction files as [|fs files IH]; [reflexivity|].
    cbn [flat_map map]. rewrite length_app, IH. reflexivity. }
  split; [exact Hskip|]. split; [exact Hlen|].
  clear Hskip Hlen. intro Hall. induction files as [|fs files IH]; [reflexivity|].
  cbn [flat_map]. rewrite (extract_chunks_error fs (Hall fs (or_introl eq_refl))).
  apply IH. intros fs' H. apply Hall. now right.
Qed.

(** ** The files of a repository run *)

Lemma length_append (a b : string) :
  String.length (a ++ b) = (String.length a + String.length b)%nat.
Proof. induction a as [|c a IH]; cbn; [reflexivity | now rewrite IH]. Qed.

Lemma substring_all (s : string) : String.substring 0 (String.length s) s = s.
Proof. induction s as [|c s IH]; cbn; [reflexivity | now rewrite IH]. Qed.

Lemma substring_skip (p s : string) (k : nat) :
  String.substring (String.length p) k (p ++ s) = String.substring 0 k s.
Proof. induction p as [|c p IH]; cbn; [reflexivity | exact IH]. Qed.

Lemma substring_split (s : string) (m : nat) :
  (m <= String.length s)%nat ->
  s = (String.substring 0 m s ++ String.substring m (String.length s - m) s)%string.
Proof.
  revert m. induction s as [|c s IH]; intros m Hm.
  - destruct m; reflexivity.
  - destruct m as [|m].
    + cbn [String.substring String.length Nat.sub]. cbn [append].
      now rewrite substring_all.
    + cbn [String.substring String.length Nat.sub append]. f_equal.
      apply IH. cbn in Hm. lia.
Qed.

(** [s.endswith(suffix)] holds exactly when [s] is some text followed by
    [suffix]. *)
Lemma endswith_spec (s suffix : string) :
  endswith s suffix = true <-> exists stem, s = (stem ++ suffix)%string.
Proof.
  unfold endswith. rewrite andb_true_iff, Nat.leb_le, String.eqb_eq. split.
  - intros [Hle Hsub].
    exists (String.substring 0 (String.length s - String.length suffix) s).
    rewrite <- Hsub at 2.
    rewrite (substring_split s (String.length s - String.length suffix)) at 1 by lia.
    do 2 f_equal. lia.
  - intros [stem ->]. rewrite length_append. split; [lia|].
    replace (String.length stem + String.length suffix - String.length suffix)%nat
      with (String.length stem) by lia.
    rewrite substring_skip. apply substring_all.
Qed.

(** The records of a repository run are the records of the files of the
    walk whose name ends in [.py], and of no other file: a record is in
    the result exactly when it is the record of [parse_python_file] for
    the path joined from a directory of the walk and one of its files
    named [stem.py], the stem being possibly empty and the suffix in lower
    case. *)
Theorem analyze_repository_files gd read_file ast_parse str_exn os_walk os_path_join
  (repo_path : string) (fs : file_structure) :
  In fs (analyze_repository gd read_file ast_parse str_exn os_walk os_path_join
           repo_path)
  <-> exists root dirs files stem,
        In (root, dirs, files) (os_walk repo_path)
        /\ In (stem ++ ".py")%string files
        /\ fs = parse_python_file gd read_file ast_parse str_exn
                  (os_path_join root (stem ++ ".py")%string).
Proof.
  rewrite analyze_repository_eq, in_map_iff. unfold py_paths. split.
  - intros (path & <- & Hpath). apply in_flat_map in Hpath.
    destruct Hpath as ([[root dirs] files] & Hw & Hpath).
    apply in_map_iff in Hpath. destruct Hpath as (file & <- & Hfile).
    apply filter_In in Hfile. destruct Hfile as [Hin Hpy].
    apply endswith_spec in Hpy. destruct Hpy as [stem ->].
    exists root, dirs, files, stem. repeat split; assumption.
  - intros (root & dirs & files & stem & Hw & Hin & ->).
    eexists. split; [reflexivity|]. apply in_flat_map.
    exists (root, dirs, files). split; [exact Hw|].
    apply in_map. apply filter_In. split; [exact Hin|].
    apply endswith_spec. now exists stem.
Qed.

(** ** The text prepared for the embedding of a chunk *)

Lemma _prepare_text_for_embedding_eq (ch : chunk) :
  _prepare_text_for_embedding ch
  = if String.eqb (chunk_type ch) "method" && negb (hasattr (chunk_class_name ch))
    then None
    else Some (join_lines
                 ((chunk_type ch ++ ": " ++ chunk_name ch)%string
                  :: embedding_middle ch ++ [("code: " ++ chunk_content ch)%string])).
Proof.
  unfold _prepare_text_for_embedding, embedding_middle.
  destruct (String.eqb (chunk_type ch) "method");
    destruct (chunk_class_name ch) as [c|]; cbn [hasattr negb andb app];
    try reflexivity;
    destruct (String.eqb (chunk_docstring ch) "");
    destruct (chunk_params ch) as [[|p ps]|];
    destruct (chunk_returns ch) as [[r|]|];
    destruct (is_callable ch); cbn [andb app];
    try destruct (negb (String.eqb r "")); cbn [app];
    rewrite <- ?app_assoc; reflexivity.
Qed.

(** The preparation of the text of a chunk fails only for a chunk of type
    method without class name, which [extract_chunks] never yields: for
    every chunk of a file structure it returns lines joined by line feeds,
    the first being [type: name] and the last [code:] followed by the
    content of the chunk; in between, the class of a method comes first,
    and a class chunk has at most its docstring. *)
Theorem prepared_text_shape (fs : file_structure) (ch : chunk) :
  In ch (extract_chunks fs) ->
  exists middle,
    _prepare_text_for_embedding ch
    = Some (join_lines
              ((chunk_type ch ++ ": " ++ chunk_name ch)%string
               :: middle ++ [("code: " ++ chunk_content ch)%string]))
    /\ (forall c, chunk_class_name ch = Some c ->
          exists rest, middle = ("class: " ++ c)%string :: rest)
    /\ (chunk_type ch = "class" ->
        middle = if String.eqb (chunk_docstring ch) "" then []
                 else [("docstring: " ++ chunk_docstring ch)%string]).
Proof.
  intro H. exists (embedding_middle ch). rewrite _prepare_text_for_embedding_eq.
  apply In_extract_chunks in H.
  destruct H as [(c & _ & [-> | (m & _ & ->)]) | (f & _ & ->)].
  - split; [reflexivity|]. split; [intros c' H; discriminate H|].
    intros _. unfold embedding_middle. cbn. now rewrite app_nil_r.
  - split; [reflexivity|]. split; [|intro H; discriminate H].
    intros c' H. injection H as <-. unfold embedding_middle.
    cbn [method_chunk chunk_type chunk_class_name String.eqb Ascii.eqb Bool.eqb app].
    eexists. reflexivity.
  - split; [reflexivity|].
    split; [intros c' H; discriminate H | intro H; discriminate H].
Qed.

Lemma prepared_text_shape_witness :
  In (func_chunk "a.py" (mk_func "baz" (6, 7)
                           ("def baz():" ++ String "010" "    x = 1") None [] None))
     (extract_chunks sample_file_structure)
  /\ _prepare_text_for_embedding
       (func_chunk "a.py" (mk_func "baz" (6, 7)
                             ("def baz():" ++ String "010" "    x = 1") None [] None))
     = Some ("function: baz" ++ String "010" (
             "code: def baz():" ++ String "010" "    x = 1"))%string.
Proof.
  assert (H : In (func_chunk "a.py"
                    (mk_func "baz" (6, 7) ("def baz():" ++ String "010" "    x = 1")
                       None [] None))
                (extract_chunks sample_file_structure)).
  { vm_compute. right. right. left. reflexivity. }
  split; [exact H|].
  destruct (prepared_text_shape sample_file_structure _ H) as (middle & _ & _ & _).
  vm_compute. reflexivity.
Defined.

(** ** The documentation of a repository *)

Lemma fold_left_snoc_ext {A B : Type} (g h : A -> B) (l : list A) (acc : list B) :
  (forall x, g x = h x) ->
  fold_left (fun acc x => acc ++ [g x]) l acc = acc ++ map h l.
Proof.
  intro E. revert acc. induction l as [|x l IH]; intro acc; cbn [fold_left map].
  - now rewrite app_nil_r.
  - rewrite IH, E, <- app_assoc. reflexivity.
Qed.

Lemma _format_parameters_eq (params : list param_info) :
  _format_parameters params = map param_doc_of params.
Proof.
  unfold _format_parameters.
  apply (fold_left_snoc_ext _ param_doc_of params []).
  intro p. unfold param_doc_of. destruct (param_default p); reflexivity.
Qed.

Lemma _generate_module_documentation_eq basename (fs : file_structure) :
  _generate_module_documentation basename fs
  = mk_module_doc (basename (file_path fs)) (file_path fs)
      (_generate_module_description fs)
      (map class_doc_of (dict_get (fs_classes fs) []))
      (map callable_doc_of (dict_get (fs_functions fs) [])).
Proof.
  unfold _generate_module_documentation. cbv zeta. f_equal.
  - apply (fold_left_snoc_ext _ class_doc_of _ []).
    intro c. unfold class_doc_of. f_equal.
    apply (fold_left_snoc callable_doc_of (class_methods c) []).
  - apply (fold_left_snoc callable_doc_of _ []).
Qed.

(** The documentation of a repository has one module per file structure
    of the run, in the order of the run; a file whose analysis failed has
    its module too, with the name and the path of the file, no class, no
    function, and the description of a module that contains nothing. *)
Theorem documentation_modules basename (repo_id : string) (files : list file_structure) :
  doc_repository_id (generate_documentation basename repo_id files) = repo_id
  /\ doc_modules (generate_documentation basename repo_id files)
     = map (_generate_module_documentation basename) files
  /\ List.length (doc_modules (generate_documentation basename repo_id files))
     = List.length files
  /\ forall fs,
       is_error fs = true ->
       _generate_module_documentation basename fs
       = mk_module_doc (basename (file_path fs)) (file_path fs)
           "This module contains 0 classes and 0 functions." [] [].
Proof.
  assert (Hmap : doc_modules (generate_documentation basename repo_id files)
                 = map (_generate_module_documentation basename) files).
  { unfold generate_documentation. cbn [doc_modules].
    apply (fold_left_snoc (_generate_module_documentation basename) files []). }
  split; [reflexivity|]. split; [exact Hmap|]. split.
  - now rewrite Hmap, length_map.
  - intros fs Herr. rewrite _generate_module_documentation_eq.
    unfold is_error in Herr. rewrite !andb_true_iff, !negb_true_iff in Herr.
    destruct Herr as ((((_ & _) & Hc) & Hf) & _).
    unfold _generate_module_description.
    destruct (fs_classes fs); [discriminate|].
    destruct (fs_functions fs); [discriminate|]. reflexivity.
Qed.

(** The documentation of a file and its chunks list the same
    declarations in the same order: each class followed by its methods,
    then the functions; so a file has as many chunks as documented
    classes, methods and functions. *)
Theorem documented_names_are_chunk_names basename (fs : file_structure) :
  documented_names (_generate_module_documentation basename fs)
  = map chunk_name (extract_chunks fs)
  /\ List.length (extract_chunks fs)
     = List.length (documented_names (_generate_module_documentation basename fs)).
Proof.
  assert (H : documented_names (_generate_module_documentation basename fs)
              = map chunk_name (extract_chunks fs)).
  { rewrite _generate_module_documentation_eq, extract_chunks_eq.
    unfold documented_names. cbn [mdoc_classes mdoc_functions].
    rewrite map_app, !map_map. f_equal.
    induction (dict_get (fs_classes fs) []) as [|c cs IH]; [reflexivity|].
    cbn [map flat_map]. rewrite map_app, IH. f_equal.
    unfold chunks_of_class, class_doc_of. cbn [kdoc_name kdoc_methods map].
    rewrite !map_map. reflexivity. }
  split; [exact H|]. now rewrite H, length_map.
Qed.

(** ** Spans whose columns count bytes, and an instance of aligned defaults *)

Lemma until_lf_line (line rest : list ascii) :
  ~ In LF line -> rest = [] \/ (exists r, rest = LF :: r) ->
  until_lf (line ++ rest) = line.
Proof.
  intros Hline Hrest. induction line as [|ch line IH]; cbn [app until_lf].
  - destruct Hrest as [-> | [r ->]]; [reflexivity|].
    cbn [until_lf]. now rewrite Ascii.eqb_refl.
  - destruct (Ascii.eqb ch LF) eqn:E.
    + apply Ascii.eqb_eq in E. subst ch. exfalso. apply Hline. now left.
    + f_equal. apply IH. intro H. apply Hline. now right.
Qed.

(** After one of its lines a text stops, or goes on with a line feed. *)
Lemma text_line_end (text tail : list ascii) (pre post : list (list ascii))
  (line : list ascii) :
  tail = [] \/ tail = [LF] ->
  text ++ tail = flat (pre ++ line :: post) ->
  exists rest, text = flat pre ++ line ++ rest
               /\ (rest = [] \/ exists r, rest = LF :: r).
Proof.
  intros Htail E. rewrite flat_app in E. cbn [flat flat_map] in E.
  fold (flat post) in E. rewrite <- app_assoc in E. cbn [app] in E.
  destruct Htail as [-> | ->].
  - rewrite app_nil_r in E. exists (LF :: flat post). split; [exact E|].
    right. now exists (flat post).
  - destruct post as [|p post].
    + cbn in E. rewrite !app_assoc in E. apply app_inj_tail in E.
      destruct E as [E _]. exists []. split; [now rewrite app_nil_r | now left].
    + destruct (flat_last (p :: post)) as [body Hb]; [discriminate|].
      rewrite Hb in E.
      replace (flat pre ++ line ++ LF :: body ++ [LF])
        with ((flat pre ++ line ++ LF :: body) ++ [LF]) in E
        by (rewrite <- !app_assoc; reflexivity).
      apply app_inj_tail in E. destruct E as [E _].
      exists (LF :: body). split; [exact E|]. right. now exists body.
Qed.

(** On a source whose line boundaries are line feeds only, the lines of
    [splitlines] are the lines of the source. *)
Lemma source_line_splitlines (source : string) (l : nat) :
  lf_only source = true ->
  (1 <= l)%nat -> (l <= List.length (splitlines source))%nat ->
  source_line source l = chars (nth (l - 1) (splitlines source) "")
  /\ (ascii_only source = true ->
      forallb (fun ch => (nat_of_ascii ch <? 128)%nat)
        (chars (nth (l - 1) (splitlines source) "")) = true).
Proof.
  intros Hlf Hl Hle.
  destruct (splitlines_from_flat source "" Hlf (fun H => H))
    as (Hall & tail & Htail & Htext).
  fold (splitlines source) in Hall, Htext. cbn [chars list_ascii_of_string app] in Htext.
  fold (chars source) in Htext.
  destruct (nth_split_at (splitlines source) (l - 1) "" ltac:(lia))
    as (pre & post & Hlines & Hpre).
  set (a := nth (l - 1) (splitlines source) "") in *.
  rewrite Hlines, map_app in Htext, Hall. cbn [map] in Htext, Hall.
  destruct (text_line_end _ _ _ _ _ Htail Htext) as (rest & Hsrc & Hrest).
  apply Forall_app in Hall. destruct Hall as [HP Hall].
  apply Forall_cons_iff in Hall. destruct Hall as [Ha _].
  split.
  - unfold source_line. rewrite Hsrc, <- Hpre, <- (length_map chars pre).
    rewrite line_start_flat by exact HP.
    rewrite skipn_app, skipn_all, Nat.sub_diag. cbn [skipn app].
    now apply until_lf_line.
  - unfold ascii_only. rewrite Hsrc, !forallb_app.
    intro H. apply andb_true_iff in H. destruct H as [_ H].
    apply andb_true_iff in H. tauto.
Qed.

Lemma char_column_ascii (line : list ascii) : forall c,
  forallb (fun ch => (nat_of_ascii ch <? 128)%nat) line = true ->
  (c <= List.length line)%nat ->
  char_column line c = c.
Proof.
  induction line as [|ch line IH]; intros c Hline Hc; cbn [char_column].
  - cbn [List.length] in Hc. lia.
  - destruct c as [|c]; [reflexivity|].
    cbn [forallb] in Hline. apply andb_true_iff in Hline. destruct Hline as [Hch Hline].
    unfold utf8_width. rewrite Hch. f_equal.
    replace (S c - 1)%nat with c by lia.
    apply IH; [exact Hline|]. cbn [List.length] in Hc. lia.
Qed.

(** On a source of ASCII characters whose line boundaries are line feeds
    only, the text that [_get_node_source] finds for a node with its four
    position attributes is the substring of the source delimited by the
    span of the node, when lines [l] to [el] are lines of the source and
    the columns [c] and [ec] lie within line [l] and line [el]. *)
Theorem _get_node_source_span (source : string) (n : node) (l c el ec : nat) :
  lf_only source = true ->
  ascii_only source = true ->
  attrs_of n = at_ (Z.of_nat l) (Z.of_nat c) (Z.of_nat el) (Z.of_nat ec) ->
  (1 <= l)%nat -> (l <= el)%nat ->
  (el <= List.length (splitlines source))%nat ->
  (c <= String.length (nth (l - 1) (splitlines source) ""))%nat ->
  (ec <= String.length (nth (el - 1) (splitlines source) ""))%nat ->
  (l = el -> (c <= ec)%nat) ->
  _get_node_source (splitlines source) n = Ok (node_span_text source l c el ec).
Proof.
  intros Hlf Hascii Hattrs Hl Hle Hel Hc Hec Hsame.
  destruct (source_line_splitlines source l Hlf Hl ltac:(lia)) as [Ea Ha].
  destruct (source_line_splitlines source el Hlf ltac:(lia) Hel) as [Eb Hb].
  unfold node_span_text. rewrite Ea, Eb.
  rewrite !char_column_ascii by (auto; rewrite chars_length; assumption).
  now apply span_by_characters.
Qed.

Lemma _get_node_source_span_witness :
  lf_only sample_source = true
  /\ ascii_only sample_source = true
  /\ attrs_of sample_bar = at_ (Z.of_nat 4) (Z.of_nat 4) (Z.of_nat 5) (Z.of_nat 16)
  /\ _get_node_source (splitlines sample_source) sample_bar
     = Ok (node_span_text sample_source 4 4 5 16).
Proof.
  split; [vm_compute; reflexivity|]. split; [vm_compute; reflexivity|].
  split; [reflexivity|].
  apply (_get_node_source_span sample_source sample_bar 4 4 5 16);
    try reflexivity; vm_compute; lia.
Defined.

(** Beyond ASCII the columns of a node, which count bytes, no longer index
    the characters of its line: for the string constant of
    [accent_source] the code takes the characters 4 to 8, one more than
    the constant. *)
Example non_ascii_columns :
  lf_only accent_source = true
  /\ ascii_only accent_source = false
  /\ node_span_text accent_source 1 4 1 8 = ("'" ++ String "233" "'")%string
  /\ _get_node_source (splitlines accent_source) accent_constant
     = Ok ("'" ++ String "233" "';")%string.
Proof. repeat split; vm_compute; reflexivity. Qed.

Lemma _extract_parameters_aligned_witness :
  Forall2 (arg_param (splitlines four_params_source))
    [Arg (at_ 1 6 1 7) "a" None; Arg (at_ 1 9 1 10) "b" None;
     Arg (at_ 1 12 1 13) "c" None; Arg (at_ 1 17 1 18) "d" None]
    [mk_param "a" None None; mk_param "b" None None;
     mk_param "c" None None; mk_param "d" None None]
  /\ Forall2 (fun d t => _get_node_source (splitlines four_params_source) d = Ok t)
       [Other (at_ 1 14 1 15) []; Other (at_ 1 19 1 20) []] ["1"; "2"]
  /\ _extract_parameters (splitlines four_params_source) four_params_def
     = Ok [mk_param "a" None None; mk_param "b" None None;
           mk_param "c" None (Some "1"); mk_param "d" None (Some "2")].
Proof.
  assert (H1 : Forall2 (arg_param (splitlines four_params_source))
                 [Arg (at_ 1 6 1 7) "a" None; Arg (at_ 1 9 1 10) "b" None;
                  Arg (at_ 1 12 1 13) "c" None; Arg (at_ 1 17 1 18) "d" None]
                 [mk_param "a" None None; mk_param "b" None None;
                  mk_param "c" None None; mk_param "d" None None]).
  { repeat constructor; eexists; eexists; repeat split. }
  assert (H2 : Forall2
                 (fun d t => _get_node_source (splitlines four_params_source) d = Ok t)
                 [Other (at_ 1 14 1 15) []; Other (at_ 1 19 1 20) []] ["1"; "2"]).
  { repeat constructor. }
  split; [exact H1|]. split; [exact H2|].
  refine (proj1 (_extract_parameters_aligned (splitlines four_params_source)
                   _ _ _ _ _ _ _ _ _ _ _ _ _ _ _ H1 H2 _)).
  cbn. lia.
Defined.

(** ** A traversal and the records collected before it *)

Lemma import_names_indep a module names : forall v v' w,
  import_names a module names v = Ok v' ->
  exists w', import_names a module names w = Ok w'
             /\ source_lines w' = source_lines w.
Proof.
  unfold import_names.
  induction names as [|name names IH]; intros v v' w H; cbn [for_each] in *.
  - exists w. split; reflexivity.
  - destruct name; try discriminate.
    destruct (lineno a) as [line|]; [|discriminate]. cbn [getattr bind] in *.
    destruct (IH _ _
                (mk_visitor (source_lines w)
                   (imports w ++ [mk_import (match module with
                                             | Some m =>
                                                 if String.eqb m "" then name
                                                 else (m ++ "." ++ name)%string
                                             | None => name
                                             end) asname line])
                   (classes w) (functions w) (variables w)) H)
      as (w' & Hw & Hs).
    exists w'. split; [exact Hw | exact Hs].
Qed.

Lemma assign_targets_indep a targets value : forall v v' w,
  assign_targets a targets value v = Ok v' ->
  source_lines w = source_lines v ->
  exists w', assign_targets a targets value w = Ok w'
             /\ source_lines w' = source_lines w.
Proof.
  unfold assign_targets.
  induction targets as [|t targets IH]; intros v v' w H Hs; cbn [for_each] in *.
  - exists w. split; reflexivity.
  - destruct t; cbn [bind] in *; try (exact (IH _ _ _ H Hs)).
    destruct (lineno a) as [line|]; [|discriminate]. cbn [getattr bind] in *.
    rewrite Hs.
    destruct (_get_node_source (source_lines v) value) as [val|]; [|discriminate].
    cbn [bind] in *.
    destruct (IH _ _
                (mk_visitor (source_lines v) (imports w) (classes w) (functions w)
                   (variables w ++ [mk_variable id line val])) H eq_refl)
      as (w' & Hw & Hs').
    exists w'. split; [exact Hw | exact Hs'].
Qed.

Lemma pre_visit_indep gd (n : node) (v v' w : visitor) :
  pre_visit gd n v = Ok v' ->
  source_lines w = source_lines v ->
  exists w', pre_visit gd n w = Ok w' /\ source_lines w' = source_lines w.
Proof.
  intros H Hs.
  destruct n; cbn [pre_visit] in *;
    try (exists w; split; reflexivity);
    try (exact (import_names_indep _ _ _ _ _ w H)).
  - rewrite Hs. destruct (class_record _ _ _); [|discriminate]. cbn [bind].
    eexists. split; reflexivity.
  - rewrite Hs. destruct (_process_function _ _ _); [|discriminate]. cbn [bind].
    eexists. split; reflexivity.
  - exact (assign_targets_indep _ _ _ _ _ w H Hs).
Qed.

Lemma visit_indep gd (n : node) : forall v v' w,
  visit gd n v = Ok v' ->
  source_lines w = source_lines v ->
  exists w', visit gd n w = Ok w'.
Proof.
  induction n as [n IH] using node_children_ind. intros v v' w H Hs.
  rewrite visit_unfold in *.
  destruct (pre_visit gd n v) as [v1|] eqn:Hpre; [|discriminate]. cbn [bind] in H.
  destruct (pre_visit_indep gd n v v1 w Hpre Hs) as (w1 & Hw1 & Hs1).
  rewrite Hw1. cbn [bind].
  assert (Hs' : source_lines w1 = source_lines v1).
  { rewrite Hs1, Hs. symmetry. apply (pre_visit_extends gd n v v1 Hpre). }
  clear Hpre Hw1 Hs Hs1 v w. revert v1 w1 H Hs'.
  induction (iter_child_nodes n) as [|c l IHl]; intros v1 w1 H Hs'.
  - now exists w1.
  - cbn [for_each] in *.
    destruct (visit gd c v1) as [v2|] eqn:Hc; [|discriminate]. cbn [bind] in H.
    destruct (IH c (or_introl eq_refl) v1 v2 w1 Hc Hs') as [w2 Hw2].
    rewrite Hw2. cbn [bind].
    apply (IHl (fun c' H' => IH c' (or_intror H')) v2 w2 H).
    rewrite (proj1 (visit_extends gd c _ _ Hw2)), (proj1 (visit_extends gd c _ _ Hc)).
    exact Hs'.
Qed.

(** What the traversal of a tree does depends on the tree and on the
    source lines only, not on the records collected before: if it returns
    from one state, it returns from every state with the same source
    lines, leaves these lines and the earlier records in place, and appends
    the same records, those of the nodes of the tree in the order of the
    traversal. *)
Theorem visit_independent gd (n : node) (v v' w : visitor) :
  visit gd n v = Ok v' ->
  source_lines w = source_lines v ->
  visit gd n w
  = Ok (mk_visitor (source_lines w)
          (imports w ++ collect own_imports n)
          (classes w ++ collect (own_classes gd (source_lines v)) n)
          (functions w ++ collect (own_functions gd (source_lines v)) n)
          (variables w ++ collect (own_variables (source_lines v)) n)).
Proof.
  intros H Hs. destruct (visit_indep gd n v v' w H Hs) as [w' Hw]. rewrite Hw.
  pose proof (visit_extends gd n _ _ Hw) as (H1 & H2 & H3 & H4).
  pose proof (visit_imports gd n _ _ Hw) as H0.
  rewrite Hs in H2, H3, H4.
  destruct w'. cbn in H0, H1, H2, H3, H4. subst. reflexivity.
Qed.

Lemma visit_independent_witness :
  visit sample_docstring sample_baz (init_visitor sample_source)
  = Ok (mk_visitor (splitlines sample_source) []
          [] [mk_func "baz" (6, 7) ("def baz():" ++ String "010" "    x = 1") None [] None]
          [mk_variable "x" 7 "1"])
  /\ visit sample_docstring sample_baz
       (mk_visitor (splitlines sample_source) [mk_import "os" None 1] [] [] [])
     = Ok (mk_visitor (splitlines sample_source) [mk_import "os" None 1] []
             [mk_func "baz" (6, 7) ("def baz():" ++ String "010" "    x = 1")
                None [] None]
             [mk_variable "x" 7 "1"]).
Proof.
  assert (H : visit sample_docstring sample_baz (init_visitor sample_source)
              = Ok (mk_visitor (splitlines sample_source) [] []
                      [mk_func "baz" (6, 7) ("def baz():" ++ String "010" "    x = 1")
                         None [] None]
                      [mk_variable "x" 7 "1"])) by (vm_compute; reflexivity).
  split; [exact H|].
  rewrite (visit_independent sample_docstring sample_baz _ _
             (mk_visitor (splitlines sample_source) [mk_import "os" None 1] [] [] [])
             H eq_refl).
  vm_compute. reflexivity.
Defined.

(** ** The documentation of parameters *)

(** The documentation of the parameters of a function keeps every
    parameter, in order, with its name and with its default exactly when
    it has one; the documented type is the annotation, or [any] for a
    parameter without annotation; every description is the placeholder. *)
Theorem parameters_documented (params : list param_info) :
  map pdoc_name (_format_parameters params) = map param_name params
  /\ map pdoc_default (_format_parameters params) = map param_default params
  /\ Forall2
       (fun p d =>
          pdoc_type d = match param_type p with Some t => t | None => "any" end
          /\ pdoc_description d = "No description available.")
       params (_format_parameters params).
Proof.
  rewrite _format_parameters_eq, !map_map. repeat split.
  induction params as [|p params IH]; constructor; [|exact IH].
  split; [|reflexivity]. unfold param_doc_of. cbn. destruct (param_type p); reflexivity.
Qed.
